(** * Code Copier for LLMs: the editor-side caller (src/extension.ts)

    A shallow embedding of [detectProjectFiles] and of the part of the
    [llm-cocop.copyProject] command handler that runs once the selected
    paths are known, together with the properties of the upward manifest
    search, of the command line handed to the core binary and of the
    summary read back from its standard output.

    Strings are [string] (sequences of 8-bit characters).  Node's [path]
    module is modelled in its POSIX flavour, Node's [fs] module as two
    observation functions of a filesystem snapshot. *)

From Stdlib Require Import String Ascii List Bool Arith Lia.
Import ListNotations.
Open Scope string_scope.
Open Scope bool_scope.

(* ================================================================== *)
(** ** Node's [path] module (path.posix) *)

Module Path.

Definition isSlashAt (s : string) (i : nat) : bool :=
  match String.get i s with
  | Some c => Ascii.eqb c "/"
  | None => false
  end.

(** The backward scan of [dirname]:
    [for (i = path.length - 1; i >= 1; --i)], looking for the first
    slash that follows (reading right to left) a non-slash character.
    The result is the value of [end] when the loop breaks, [None] when
    the loop runs to completion with [end === -1]. *)
Fixpoint dirname_scan (path : string) (i : nat) (matchedSlash : bool)
  : option nat :=
  match i with
  | 0 => None
  | S i' =>
      if isSlashAt path i then
        if matchedSlash then dirname_scan path i' matchedSlash
        else Some i
      else dirname_scan path i' false
  end.

Definition dirname (path : string) : string :=
  if (String.length path =? 0)%nat then "."
  else
    let hasRoot := isSlashAt path 0 in
    match dirname_scan path (String.length path - 1) true with
    | None => if hasRoot then "/" else "."
    | Some e =>
        if hasRoot && (e =? 1)%nat then "//" else substring 0 e path
    end.

(** Segments of a path between separators. *)
Fixpoint split_slash (s : string) : list string :=
  match s with
  | EmptyString => [""]
  | String c s' =>
      if Ascii.eqb c "/" then "" :: split_slash s'
      else match split_slash s' with
           | seg :: segs => String c seg :: segs
           | [] => [String c ""]
           end
  end.

(** [normalizeString], segment by segment: empty and [.] segments are
    dropped, [..] removes the previous segment unless there is none or
    it is itself [..], in which case it is kept only when the path may
    climb above its root.  [res] is the output so far, last segment
    first. *)
Fixpoint normalize_segments (allowAboveRoot : bool) (segs res : list string)
  : list string :=
  match segs with
  | [] => rev res
  | seg :: segs' =>
      if (seg =? "") || (seg =? ".") then
        normalize_segments allowAboveRoot segs' res
      else if seg =? ".." then
        match res with
        | last :: res' =>
            if last =? ".." then
              normalize_segments allowAboveRoot segs'
                (if allowAboveRoot then ".." :: res else res)
            else normalize_segments allowAboveRoot segs' res'
        | [] =>
            normalize_segments allowAboveRoot segs'
              (if allowAboveRoot then [".."] else [])
        end
      else normalize_segments allowAboveRoot segs' (seg :: res)
  end.

Definition normalize (path : string) : string :=
  if (String.length path =? 0)%nat then "."
  else
    let isAbsolute := isSlashAt path 0 in
    let trailingSeparator := isSlashAt path (String.length path - 1) in
    let p := String.concat "/"
               (normalize_segments (negb isAbsolute) (split_slash path) []) in
    if (String.length p =? 0)%nat then
      if isAbsolute then "/" else if trailingSeparator then "./" else "."
    else
      let p := if trailingSeparator then p ++ "/" else p in
      if isAbsolute then "/" ++ p else p.

(** [path.join(...args)]: the non-empty arguments, separated by slashes,
    normalized. *)
Definition join (args : list string) : string :=
  match filter (fun a => negb (String.length a =? 0)%nat) args with
  | [] => "."
  | parts => normalize (String.concat "/" parts)
  end.

End Path.

(* ================================================================== *)
(** ** Node's [fs] module: what the extension observes of the filesystem *)

(** [fs.Stats], reduced to the one query the extension makes. *)
Record Stats := { isFile : bool }.

(** A filesystem snapshot.  [existsSync] never throws; [statSync] either
    returns the [Stats] of the path or throws, which is modelled by
    [inr] of the error's message. *)
Record FS := {
  existsSync : string -> bool;
  statSync : string -> Stats + string
}.

(* ================================================================== *)
(** ** [detectProjectFiles] *)

(** [interface ProjectFiles]: each field is a string or [null]. *)
Record ProjectFiles := {
  cargoToml : option string;
  pythonProject : option string
}.

(** JavaScript truthiness of a [string | null]: [null] and the empty
    string are falsy. *)
Definition truthy (v : option string) : bool :=
  match v with
  | Some s => negb (s =? "")
  | None => false
  end.

(** The calls the detection makes to [fs], in program order.  [Enter d]
    is a ghost event that marks the start of an iteration of the [while]
    loop with [currentDir = d]. *)
Inductive event :=
| StatSync (p : string)
| Enter (d : string)
| ExistsSync (p : string).

(** The mutable state of a run: the [result] object and the calls made
    so far. *)
Record State := {
  result : ProjectFiles;
  trace : list event
}.

Definition emit (e : event) (st : State) : State :=
  {| result := result st; trace := trace st ++ [e] |}.

Definition setCargoToml (p : string) (st : State) : State :=
  {| result := {| cargoToml := Some p;
                  pythonProject := pythonProject (result st) |};
     trace := trace st |}.

Definition setPythonProject (p : string) (st : State) : State :=
  {| result := {| cargoToml := cargoToml (result st);
                  pythonProject := Some p |};
     trace := trace st |}.

(** [result.cargoToml && result.pythonProject] *)
Definition foundBoth (st : State) : bool :=
  truthy (cargoToml (result st)) && truthy (pythonProject (result st)).

(** A call [fs.existsSync(p)]. *)
Definition probe (fs : FS) (p : string) (st : State) : bool * State :=
  (existsSync fs p, emit (ExistsSync p) st).

(** The body of the [while] loop up to the two [break] tests
    (extension.ts lines 170-187).  In every condition [fs.existsSync] is
    the left operand of [&&], so it is called whether or not the kind is
    already recorded; the [else if] chain stops probing at the first
    candidate that is recorded. *)
Definition visit (fs : FS) (currentDir : string) (st : State) : State :=
  let st := emit (Enter currentDir) st in
  let cargoPath := Path.join [currentDir; "Cargo.toml"] in
  let '(found, st) := probe fs cargoPath st in
  let st :=
    if found && negb (truthy (cargoToml (result st)))
    then setCargoToml cargoPath st else st in
  let pyprojectPath := Path.join [currentDir; "pyproject.toml"] in
  let setupPyPath := Path.join [currentDir; "setup.py"] in
  let requirementsPath := Path.join [currentDir; "requirements.txt"] in
  let '(found, st) := probe fs pyprojectPath st in
  if found && negb (truthy (pythonProject (result st)))
  then setPythonProject pyprojectPath st
  else
    let '(found, st) := probe fs setupPyPath st in
    if found && negb (truthy (pythonProject (result st)))
    then setPythonProject setupPyPath st
    else
      let '(found, st) := probe fs requirementsPath st in
      if found && negb (truthy (pythonProject (result st)))
      then setPythonProject requirementsPath st
      else st.

(** [while (currentDir) { ... }] (lines 169-201).  Each iteration uses
    one unit of [fuel]; [None] means that the fuel ran out before the
    loop left. *)
Fixpoint while_loop (fuel : nat) (fs : FS) (currentDir : string) (st : State)
  : option State :=
  match fuel with
  | 0 => None
  | S fuel' =>
      if currentDir =? "" then Some st
      else
        let st := visit fs currentDir st in
        if foundBoth st then Some st
        else
          let parentDir := Path.dirname currentDir in
          if parentDir =? currentDir then Some st
          else while_loop fuel' fs parentDir st
  end.

(** Iterations granted to the walk that starts at [currentDir]: with
    [path.posix] they are never used up (see [while_loop_enough]). *)
Definition walk_fuel (currentDir : string) : nat :=
  String.length currentDir + 2.

(** How a run of [detectProjectFiles] ends: it returns, [fs.statSync]
    throws, or the walk does not finish. *)
Inductive completion :=
| Returned (st : State)
| Threw (message : string) (st : State)
| Diverged.

(** [const stats = fs.statSync(filePath);
     let currentDir = stats.isFile() ? path.dirname(filePath) : filePath;] *)
Definition startDir (stats : Stats) (filePath : string) : string :=
  if isFile stats then Path.dirname filePath else filePath.

(** One iteration of [for (const filePath of paths)], up to the test
    that follows the walk (lines 165-201). *)
Definition processPath (fs : FS) (filePath : string) (st : State) : completion :=
  let st := emit (StatSync filePath) st in
  match statSync fs filePath with
  | inr message => Threw message st
  | inl stats =>
      let currentDir := startDir stats filePath in
      match while_loop (walk_fuel currentDir) fs currentDir st with
      | None => Diverged
      | Some st => Returned st
      end
  end.

(** [for (const filePath of paths) { ... }] (lines 164-207). *)
Fixpoint for_paths (fs : FS) (paths : list string) (st : State) : completion :=
  match paths with
  | [] => Returned st
  | filePath :: rest =>
      match processPath fs filePath st with
      | Returned st =>
          if foundBoth st then Returned st else for_paths fs rest st
      | stopped => stopped
      end
  end.

Definition initial : State :=
  {| result := {| cargoToml := None; pythonProject := None |};
     trace := [] |}.

Definition detectProjectFiles (fs : FS) (paths : list string) : completion :=
  for_paths fs paths initial.

(* ================================================================== *)
(** ** The regular expressions that read the summary back *)

Module Regex.

(** Character classes: [\d] and [\w]. *)
Inductive cclass :=
| Digit
| Word.

Definition isDigit (c : ascii) : bool :=
  let n := nat_of_ascii c in ((48 <=? n) && (n <=? 57))%nat.

Definition isWord (c : ascii) : bool :=
  let n := nat_of_ascii c in
  (((48 <=? n) && (n <=? 57)) || ((65 <=? n) && (n <=? 90))
   || ((97 <=? n) && (n <=? 122)) || (n =? 95))%nat.

Definition inClass (k : cclass) (c : ascii) : bool :=
  match k with
  | Digit => isDigit c
  | Word => isWord c
  end.

(** The fragment of the regular expression syntax that the extension
    uses: literal text and a capturing group around a greedy [k+]. *)
Inductive node :=
| Chars (text : string)
| Group (k : cclass).

Definition regex := list node.

(** [stripPrefix text s]: what follows [text] at the start of [s]. *)
Fixpoint stripPrefix (text s : string) : option string :=
  match text, s with
  | EmptyString, _ => Some s
  | String a text', String b s' =>
      if Ascii.eqb a b then stripPrefix text' s' else None
  | String _ _, EmptyString => None
  end.

(** A greedy [k+] followed by the rest of the expression: take one
    more character of the class first, and give characters back only
    when [rest] fails on what follows.  [taken] is what the group holds
    so far. *)
Fixpoint plus (k : cclass) (rest : string -> option (list string))
    (s taken : string) {struct s} : option (list string) :=
  match s with
  | EmptyString => None
  | String c s' =>
      if inClass k c then
        let taken := taken ++ String c "" in
        match plus k rest s' taken with
        | Some caps => Some caps
        | None =>
            match rest s' with
            | Some caps => Some (taken :: caps)
            | None => None
            end
        end
      else None
  end.

(** Backtracking matcher anchored at the start of [s]; the result is the
    list of captured groups. *)
Fixpoint matchHere (re : regex) (s : string) {struct re}
  : option (list string) :=
  match re with
  | [] => Some []
  | Chars text :: re' =>
      match stripPrefix text s with
      | Some s' => matchHere re' s'
      | None => None
      end
  | Group k :: re' => plus k (matchHere re') s ""
  end.

(** [String.prototype.match] with a non-global expression: the match
    that starts leftmost. *)
Fixpoint search (re : regex) (s : string) : option (list string) :=
  match matchHere re s with
  | Some caps => Some caps
  | None =>
      match s with
      | EmptyString => None
      | String _ s' => search re s'
      end
  end.

(** [m[1]] of a successful match. *)
Definition group1 (m : option (list string)) : option string :=
  match m with
  | Some (g :: _) => Some g
  | _ => None
  end.

End Regex.

(** [/Files processed: (\d+)/] *)
Definition filesRe : Regex.regex :=
  [Regex.Chars "Files processed: "; Regex.Group Regex.Digit].
(** [/Total size: (\d+) characters/] *)
Definition sizeRe : Regex.regex :=
  [Regex.Chars "Total size: "; Regex.Group Regex.Digit;
   Regex.Chars " characters"].
(** [/Project type: (\w+)/] *)
Definition typeRe : Regex.regex :=
  [Regex.Chars "Project type: "; Regex.Group Regex.Word].

Definition filesMatch (stdout : string) := Regex.search filesRe stdout.
Definition sizeMatch (stdout : string) := Regex.search sizeRe stdout.
Definition typeMatch (stdout : string) := Regex.search typeRe stdout.

(** [m ? m[1] : fallback] *)
Definition orElse (m : option (list string)) (fallback : string) : string :=
  match Regex.group1 m with
  | Some g => g
  | None => fallback
  end.

Definition filesCount (stdout : string) : string :=
  orElse (filesMatch stdout) "multiple".
Definition charCount (stdout : string) : string :=
  orElse (sizeMatch stdout) "unknown".
Definition projectType (stdout : string) : string :=
  orElse (typeMatch stdout) "unknown".

(** The text of the notification (lines 125-127). *)
Definition notification (stdout : string) : string :=
  "Files copied to clipboard! (" ++ filesCount stdout ++ " files, "
  ++ charCount stdout ++ " characters, " ++ projectType stdout ++ " project)".

(* ================================================================== *)
(** ** The command handler, from the selected paths onward *)

Definition dquote : string := String (ascii_of_nat 34) "".

(** [`"${p}"`] *)
Definition quoted (p : string) : string := dquote ++ p ++ dquote.

(** [selectedPaths.includes(p)] *)
Definition includes (selectedPaths : list string) (p : string) : bool :=
  existsb (String.eqb p) selectedPaths.

(** One of the two optional overrides (lines 93-95 and 98-100):
    [if (file && !selectedPaths.includes(file)) commandArgs += ` flag "file"`]. *)
Definition override (flag : string) (file : option string)
    (selectedPaths : list string) : string :=
  match file with
  | Some p =>
      if truthy file && negb (includes selectedPaths p)
      then " " ++ flag ++ " " ++ quoted p
      else ""
  | None => ""
  end.

(** [commandArgs] once both overrides have been considered
    (lines 90-100). *)
Definition commandArgs (selectedPaths : list string) (projectFiles : ProjectFiles)
  : string :=
  String.concat " " (map quoted selectedPaths)
  ++ override "--cargo-toml" (cargoToml projectFiles) selectedPaths
  ++ override "--pyproject" (pythonProject projectFiles) selectedPaths.

(** What [child_process.exec] hands to its callback. *)
Record ExecResult := {
  error : option string;
  stdout : string;
  stderr : string
}.

(** The environment of the command. *)
Record Host := {
  fs : FS;
  extensionPath : string;
  platform : string;
  exec : string -> ExecResult
}.

(** What the user and the operating system see of a run. *)
Inductive action :=
| ShowErrorMessage (message : string)
| ShowInformationMessage (message : string)
| ProgressReport (increment : nat) (message : string)
| Exec (command : string).

Definition binPath (h : Host) : string :=
  Path.join [extensionPath h; "bin";
             if platform h =? "win32" then "llm-cocop-rs.exe" else "llm-cocop"].

(** Lines 60-135 of the handler of [llm-cocop.copyProject]; [None] when
    the detection does not finish.  Console output is left out. *)
Definition copyProject (h : Host) (selectedPaths : list string)
  : option (list action) :=
  if (List.length selectedPaths =? 0)%nat then
    Some [ShowErrorMessage "No files or directories selected."]
  else if negb (existsSync (fs h) (binPath h)) then
    Some [ShowErrorMessage
            "Code Copier binary not found. Please check the installation."]
  else
    match detectProjectFiles (fs h) selectedPaths with
    | Diverged => None
    | Threw message _ => Some [ShowErrorMessage ("Error: " ++ message)]
    | Returned st =>
        let command :=
          quoted (binPath h) ++ " " ++ commandArgs selectedPaths (result st) in
        let r := exec h command in
        Some (ProgressReport 0 "Starting..." :: Exec command ::
              match error r with
              | Some message =>
                  [ShowErrorMessage ("Error copying files: " ++ message)]
              | None =>
                  [ProgressReport 100 "Complete!";
                   ShowInformationMessage (notification (stdout r))]
              end)
    end.

(* ================================================================== *)
(** ** Specification vocabulary *)

(** The directories entered, in order. *)
Definition entered (tr : list event) : list string :=
  flat_map (fun e => match e with Enter d => [d] | _ => [] end) tr.

(** The Rust manifest of directory [d], when it is there. *)
Definition cargoAt (fs : FS) (d : string) : option string :=
  let p := Path.join [d; "Cargo.toml"] in
  if existsSync fs p then Some p else None.

(** The Python candidates of a directory, in the order of the source. *)
Definition pythonCandidates (d : string) : list string :=
  [Path.join [d; "pyproject.toml"]; Path.join [d; "setup.py"];
   Path.join [d; "requirements.txt"]].

(** The Python project file of directory [d]: the first that exists of
    [pyproject.toml], [setup.py] and [requirements.txt]. *)
Definition pythonAt (fs : FS) (d : string) : option string :=
  find (existsSync fs) (pythonCandidates d).

(** The first directory of [ds] that has what [f] looks for. *)
Fixpoint firstSome (f : string -> option string) (ds : list string)
  : option string :=
  match ds with
  | [] => None
  | d :: ds' =>
      match f d with
      | Some p => Some p
      | None => firstSome f ds'
      end
  end.

(** [d], its parent, its grandparent, ... up to the first directory that
    is its own parent, [n] directories at most. *)
Fixpoint ancestors (n : nat) (d : string) : list string :=
  match n with
  | 0 => []
  | S n' =>
      d :: (if Path.dirname d =? d then [] else ancestors n' (Path.dirname d))
  end.

(** The directories a walk that starts at [d] can enter. *)
Definition ancestry (d : string) : list string :=
  if d =? "" then [] else ancestors (walk_fuel d) d.

(** Every directory the inputs give access to: for each input path in
    turn, its starting directory and then the ancestors of that
    directory, nearest first. *)
Definition searchOrder (fs : FS) (paths : list string) : list string :=
  flat_map
    (fun filePath =>
       match statSync fs filePath with
       | inl stats => ancestry (startDir stats filePath)
       | inr _ => []
       end) paths.

Definition stateOf (c : completion) : option State :=
  match c with
  | Returned st => Some st
  | Threw _ st => Some st
  | Diverged => None
  end.

(** All characters of [s] are in class [k]. *)
Fixpoint allIn (k : Regex.cclass) (s : string) : bool :=
  match s with
  | EmptyString => true
  | String c s' => Regex.inClass k c && allIn k s'
  end.

(** [denotes re m caps]: the text [m] is in the language of [re], with
    the groups capturing [caps]. *)
Fixpoint denotes (re : Regex.regex) (m : string) (caps : list string) : Prop :=
  match re with
  | [] => m = "" /\ caps = []
  | Regex.Chars text :: re' =>
      exists m', m = text ++ m' /\ denotes re' m' caps
  | Regex.Group k :: re' =>
      exists v m' caps',
        v <> "" /\ allIn k v = true /\ m = v ++ m' /\ caps = v :: caps'
        /\ denotes re' m' caps'
  end.


(* ================================================================== *)
(** ** Sample filesystems *)

Definition mem (p : string) (l : list string) : bool :=
  existsb (String.eqb p) l.

(** The snapshot with the given regular files and directories. *)
Definition mkFS (files dirs : list string) : FS :=
  {| existsSync := fun p => mem p files || mem p dirs;
     statSync := fun p =>
       if mem p files then inl {| isFile := true |}
       else if mem p dirs then inl {| isFile := false |}
       else inr ("ENOENT: no such file or directory, stat '" ++ p ++ "'") |}.

(** A Rust crate inside a workspace that also has a Rust manifest and a
    Python dependency list. *)
Definition workspaceFS : FS :=
  mkFS ["/w/app/Cargo.toml"; "/w/app/src/main.rs"; "/w/Cargo.toml";
        "/w/requirements.txt"; "/ext/bin/llm-cocop"]
       ["/"; "/w"; "/w/app"; "/w/app/src"; "/ext"; "/ext/bin"].

(** A crate that carries both kinds of manifest, below a directory that
    has its own. *)
Definition nestedFS : FS :=
  mkFS ["/w/app/Cargo.toml"; "/w/app/requirements.txt"; "/w/app/setup.py";
        "/w/app/lib.rs"; "/w/Cargo.toml"; "/w/pyproject.toml";
        "/ext/bin/llm-cocop"]
       ["/"; "/w"; "/w/app"; "/ext"; "/ext/bin"].

(** Two sibling directories, each with a Python dependency list. *)
Definition siblingsFS : FS :=
  mkFS ["/p/a/requirements.txt"; "/p/a/x.py"; "/p/b/requirements.txt";
        "/p/b/y.py"]
       ["/"; "/p"; "/p/a"; "/p/b"].

Definition sampleStdout : string :=
  "Files processed: 12; Total size: 3456 characters; Project type: rust".

Definition sampleHost (fs0 : FS) (output : string) : Host :=
  {| fs := fs0;
     extensionPath := "/ext";
     platform := "linux";
     exec := fun _ => {| error := None; stdout := output; stderr := "" |} |}.

(** [workspaceFS] with one more crate, away from the others. *)
Definition widerFS : FS :=
  mkFS ["/w/app/Cargo.toml"; "/w/app/src/main.rs"; "/w/Cargo.toml";
        "/w/requirements.txt"; "/ext/bin/llm-cocop"; "/other/Cargo.toml"]
       ["/"; "/w"; "/w/app"; "/w/app/src"; "/ext"; "/ext/bin"; "/other"].

(** The trace of the detection on [workspaceFS] from [/w/app/src/main.rs],
    up to the directory where the Rust manifest is found, and after it. *)
Definition traceBelowApp : list event :=
  [StatSync "/w/app/src/main.rs"; Enter "/w/app/src";
   ExistsSync "/w/app/src/Cargo.toml"; ExistsSync "/w/app/src/pyproject.toml";
   ExistsSync "/w/app/src/setup.py"; ExistsSync "/w/app/src/requirements.txt"].

Definition traceAboveApp : list event :=
  [ExistsSync "/w/app/Cargo.toml"; ExistsSync "/w/app/pyproject.toml";
   ExistsSync "/w/app/setup.py"; ExistsSync "/w/app/requirements.txt";
   Enter "/w"; ExistsSync "/w/Cargo.toml"; ExistsSync "/w/pyproject.toml";
   ExistsSync "/w/setup.py"; ExistsSync "/w/requirements.txt"].

(* ================================================================== *)
(** ** Vocabulary of the search invariants *)

Arguments Path.join : simpl never.
Arguments Path.dirname : simpl never.

(** What a kind's field holds after a directory that offers [here]. *)
Definition record (before here : option string) : option string :=
  if truthy before then before
  else match here with
       | Some p => Some p
       | None => before
       end.

Ltac visit_cases fs d st :=
  unfold visit, probe, setCargoToml, setPythonProject, emit,
    cargoAt, pythonAt, pythonCandidates, record;
  simpl;
  destruct (existsSync fs (Path.join [d; "Cargo.toml"])); simpl;
  destruct (truthy (cargoToml (result st))); simpl;
  destruct (existsSync fs (Path.join [d; "pyproject.toml"])); simpl;
  destruct (truthy (pythonProject (result st))); simpl;
  destruct (existsSync fs (Path.join [d; "setup.py"])); simpl;
  destruct (existsSync fs (Path.join [d; "requirements.txt"])); simpl.

(** The invariant of the search: each field holds what the first
    directory entered so far that has the kind offers. *)
Definition firstWins (fs : FS) (st : State) : Prop :=
  cargoToml (result st) = firstSome (cargoAt fs) (entered (trace st))
  /\ pythonProject (result st) = firstSome (pythonAt fs) (entered (trace st)).

Definition isSome (o : option string) : bool :=
  match o with
  | Some _ => true
  | None => false
  end.

(** Both kinds have a manifest among the directories [ds]. *)
Definition bothAt (fs : FS) (ds : list string) : bool :=
  isSome (firstSome (cargoAt fs) ds) && isSome (firstSome (pythonAt fs) ds).

(** The directories of [todo] that are entered when those of [seen] have
    been: each in turn, up to the one that completes both kinds. *)
Fixpoint stopWhenBoth (fs : FS) (seen todo : list string) : list string :=
  match todo with
  | [] => []
  | d :: todo' =>
      d :: (if bothAt fs (seen ++ [d]) then []
            else stopWhenBoth fs (seen ++ [d]) todo')
  end.

(** The elements of [l] up to and including the first that satisfies [f]. *)
Fixpoint uptoFirst (f : string -> bool) (l : list string) : list string :=
  match l with
  | [] => []
  | x :: l' => x :: (if f x then [] else uptoFirst f l')
  end.

(** The calls one iteration makes for directory [d], the first [k] of
    the Python candidates being probed. *)
Definition checks (d : string) (k : nat) : list event :=
  Enter d :: ExistsSync (Path.join [d; "Cargo.toml"])
    :: map ExistsSync (firstn k (pythonCandidates d)).

(** Directory [d] was entered and checked for manifests somewhere in [tr]. *)
Definition checked (d : string) (tr : list event) : Prop :=
  exists pre k post, 1 <= k <= 3 /\ tr = (pre ++ checks d k ++ post)%list.

(** Once a kind is recorded, nothing replaces it. *)
Definition kept (st st' : State) : Prop :=
  (truthy (cargoToml (result st)) = true ->
   cargoToml (result st') = cargoToml (result st))
  /\ (truthy (pythonProject (result st)) = true ->
      pythonProject (result st') = pythonProject (result st)).

(** "After the first manifest of a kind is found, no higher-level
    directory is searched for that kind again", for the Rust kind: once
    a directory with a Rust manifest has been entered, the directories
    entered after it are not probed for a Rust manifest. *)
Definition noProbeAfterMatch (fs : FS) (paths : list string) : Prop :=
  forall st tr1 d tr2,
    detectProjectFiles fs paths = Returned st ->
    trace st = (tr1 ++ Enter d :: tr2)%list ->
    cargoAt fs d <> None ->
    forall d', In d' (entered tr2) ->
      ~ In (ExistsSync (Path.join [d'; "Cargo.toml"])) tr2.

(** The longest prefix of [s] whose characters are all in class [k]. *)
Fixpoint spanClass (k : Regex.cclass) (s : string) : string :=
  match s with
  | EmptyString => ""
  | String c s' => if Regex.inClass k c then String c (spanClass k s') else ""
  end.

(** [s] does not start with a character of class [k]. *)
Definition stopsClass (k : Regex.cclass) (s : string) : Prop :=
  match s with
  | EmptyString => True
  | String c _ => Regex.inClass k c = false
  end.

(** "A missing input path is fatal for that input only": when some
    input path can be examined, the run goes on to execute the core. *)
Definition missingInputIsSkipped (h : Host) (selectedPaths : list string) : Prop :=
  (exists p stats, In p selectedPaths /\ statSync (fs h) p = inl stats) ->
  exists actions command,
    copyProject h selectedPaths = Some actions /\ In (Exec command) actions.

(** Two snapshots answer alike every call recorded in [tr]. *)
Definition agreeOn (fs1 fs2 : FS) (tr : list event) : Prop :=
  (forall p, In (ExistsSync p) tr -> existsSync fs2 p = existsSync fs1 p)
  /\ (forall p, In (StatSync p) tr -> statSync fs2 p = statSync fs1 p).

Ltac in_trace :=
  repeat rewrite in_app_iff; simpl; tauto.

(* ================================================================== *)
(** ** The selection of the paths (extension.ts lines 11-58, 141-150) *)

(** [tab.input]: a [vscode.TabInputText] with its [uri], or another kind
    of tab.  A [vscode.Uri] is represented by its [fsPath]. *)
Inductive TabInput :=
| TabInputText (uri : string)
| TabInputOther.

(** An element of [vscode.workspace.workspaceFolders]. *)
Record WorkspaceFolder := {
  folderName : string;
  folderUri : string
}.

(** An element of [folderOptions]: [{ label: folder.name, uri: folder.uri }]. *)
Record FolderOption := {
  label : string;
  optionUri : string
}.

(** What the handler reads of the editor: the truthiness of the setting
    [explorer.experimentalFileNesting], the tabs of the active tab
    group, the document of the active text editor, the workspace folders
    ([None] for [undefined]) and the answer of the user to
    [showQuickPick] ([None] when the user cancels). *)
Record Editor := {
  experimentalFileNesting : bool;
  tabs : list TabInput;
  activeTextEditor : option string;
  workspaceFolders : option (list WorkspaceFolder);
  showQuickPick : list FolderOption -> option FolderOption
}.

(** [getExplorerSelection]: [undefined] when the setting is on, and
    otherwise the [uri] of every tab whose input is a [TabInputText]
    ([filter] then [map]). *)
Definition getExplorerSelection (e : Editor) : option (list string) :=
  if experimentalFileNesting e then None
  else Some (flat_map (fun input => match input with
                                    | TabInputText uri => [uri]
                                    | TabInputOther => []
                                    end) (tabs e)).

(** How lines 11-58 end: with [selectedPaths] assigned, with the error
    about the workspace, or silently when the user cancels. *)
Inductive selection :=
| Selected (selectedPaths : list string)
| NoWorkspaceFolder
| Cancelled.

Definition folderOption (folder : WorkspaceFolder) : FolderOption :=
  {| label := folderName folder; optionUri := folderUri folder |}.

Definition selectPaths (e : Editor) (uri : option string) : selection :=
  match uri with
  | Some u => Selected [u]
  | None =>
      let explorerSelection := getExplorerSelection e in
      match explorerSelection with
      | Some (u :: us) => Selected (u :: us)
      | _ =>
          match activeTextEditor e with
          | Some document => Selected [document]
          | None =>
              match workspaceFolders e with
              | None => NoWorkspaceFolder
              | Some [] => NoWorkspaceFolder
              | Some [folder] => Selected [folderUri folder]
              | Some folders =>
                  match showQuickPick e (map folderOption folders) with
                  | None => Cancelled
                  | Some selectedFolder => Selected [optionUri selectedFolder]
                  end
              end
          end
      end
  end.

(** The handler of [llm-cocop.copyProject] as a whole (lines 9-136). *)
Definition copyProjectCommand (e : Editor) (h : Host) (uri : option string)
  : option (list action) :=
  match selectPaths e uri with
  | Selected selectedPaths => copyProject h selectedPaths
  | NoWorkspaceFolder => Some [ShowErrorMessage "No workspace folder is open."]
  | Cancelled => Some []
  end.

(** The messages shown and the commands executed, among the actions. *)
Definition messages (actions : list action) : list string :=
  flat_map (fun a => match a with
                     | ShowErrorMessage m => [m]
                     | ShowInformationMessage m => [m]
                     | _ => []
                     end) actions.

Definition executed (actions : list action) : list string :=
  flat_map (fun a => match a with Exec c => [c] | _ => [] end) actions.

(* ================================================================== *)
(** ** More vocabulary for the detection *)

(** The paths handed to [fs.statSync], and to [fs.existsSync], in order. *)
Definition statted (tr : list event) : list string :=
  flat_map (fun e => match e with StatSync p => [p] | _ => [] end) tr.

Definition probed (tr : list event) : list string :=
  flat_map (fun e => match e with ExistsSync p => [p] | _ => [] end) tr.

(** The three names of a Python project file. *)
Definition pythonNames : list string :=
  ["pyproject.toml"; "setup.py"; "requirements.txt"].

(** [s] holds no double quote. *)
Fixpoint quoteFree (s : string) : bool :=
  match s with
  | EmptyString => true
  | String c s' => negb (Ascii.eqb c (ascii_of_nat 34)) && quoteFree s'
  end.

(** Character [a] does not occur in [s]. *)
Fixpoint lacks (a : ascii) (s : string) : bool :=
  match s with
  | EmptyString => true
  | String c s' => negb (Ascii.eqb c a) && lacks a s'
  end.

Definition newline : string := String (ascii_of_nat 10) "".

(** A summary of three lines, as the patterns expect it. *)
Definition summaryText (files size kind : string) : string :=
  "Files processed: " ++ files ++ newline
  ++ "Total size: " ++ size ++ " characters" ++ newline
  ++ "Project type: " ++ kind ++ newline.

(* ================================================================== *)
(** ** The earlier handler, [rust-code-copier.copyProject]
       (the TypeScript source that follows build.bat, lines 87-184) *)

(** How its lines 96-123 end: with the directory to copy, with the
    error about the workspace, or silently when the user cancels. *)
Inductive folderChoice :=
| Chosen (dirPath : string)
| NoFolder
| Dismissed.

Definition legacyChoose (e : Editor) (uri : option string) : folderChoice :=
  match uri with
  | Some u => Chosen u
  | None =>
      match workspaceFolders e with
      | None => NoFolder
      | Some [] => NoFolder
      | Some [folder] => Chosen (folderUri folder)
      | Some folders =>
          match showQuickPick e (map folderOption folders) with
          | None => Dismissed
          | Some selectedFolder => Chosen (optionUri selectedFolder)
          end
      end
  end.




(* ================================================================== *)
(** ** The build script (src/unnamed/part_000, lines 17-31) *)

(** The name of the file that the script copies into [bin/], by the
    value of [$OSTYPE]: [[[ "$OSTYPE" == "darwin"* ]]] and the like are
    prefix tests, [[[ "$OSTYPE" == "win32" ]]] is an equality; for any
    other value the script exits with status 1. *)
Definition installedBinary (ostype : string) : option string :=
  if String.prefix "darwin" ostype then Some "llm-cocop-rs"
  else if String.prefix "linux-gnu" ostype then Some "llm-cocop-rs"
  else if String.prefix "msys" ostype || (ostype =? "win32")
       then Some "llm-cocop-rs.exe"
  else None.

(** The file name that [binPath] looks for:
    [process.platform === 'win32' ? 'llm-cocop-rs.exe' : 'llm-cocop']. *)
Definition binName (platform : string) : string :=
  if platform =? "win32" then "llm-cocop-rs.exe" else "llm-cocop".

(** An editor with two text tabs, an active editor and two folders. *)
Definition sampleEditor : Editor :=
  {| experimentalFileNesting := false;
     tabs := [TabInputText "/w/app/src/main.rs"; TabInputOther;
              TabInputText "/w/requirements.txt"];
     activeTextEditor := Some "/w/app/src/main.rs";
     workspaceFolders :=
       Some [{| folderName := "w"; folderUri := "/w" |};
             {| folderName := "other"; folderUri := "/other" |}];
     showQuickPick := fun options => nth_error options 1 |}.

(** The same editor with no tab and no active editor. *)
Definition bareEditor : Editor :=
  {| experimentalFileNesting := false;
     tabs := [];
     activeTextEditor := None;
     workspaceFolders := workspaceFolders sampleEditor;
     showQuickPick := showQuickPick sampleEditor |}.

(** A file name proper: not empty, without a slash, and neither [.]
    nor [..]. *)
Definition plainName (name : string) : bool :=
  negb (name =? "") && lacks "/" name
  && negb (name =? ".") && negb (name =? "..").

(** [workspaceFS] without its Python dependency list. *)
Definition rustOnlyFS : FS :=
  {| existsSync := fun p =>
       existsSync workspaceFS p && negb (p =? "/w/requirements.txt");
     statSync := statSync workspaceFS |}.


(** "For every directory visited, the first of the three candidates that
    exists in that directory is the one recorded for the Python kind",
    as a property of a run that returns. *)
Definition recordsFirstExistingEverywhere (fs : FS) (paths : list string) : Prop :=
  forall st d p,
    detectProjectFiles fs paths = Returned st ->
    In d (entered (trace st)) ->
    find (existsSync fs) (pythonCandidates d) = Some p ->
    pythonProject (result st) = Some p.

(** A package with a dependency list, below a directory with a
    [pyproject.toml]; no Rust manifest anywhere. *)
Definition layeredFS : FS :=
  mkFS ["/w/app/requirements.txt"; "/w/app/x.py"; "/w/pyproject.toml"]
       ["/"; "/w"; "/w/app"].

(* ================================================================== *)
(** * Properties *)

(** ** Strings *)

Lemma length_append (a b : string) :
  String.length (a ++ b) = String.length a + String.length b.
Proof. induction a as [|c a IH]; simpl; [reflexivity | now rewrite IH]. Qed.


Lemma append_empty_r (s : string) : s ++ "" = s.
Proof. induction s as [|c s IH]; simpl; [reflexivity | now rewrite IH]. Qed.

Lemma append_assoc (a b c : string) : (a ++ b) ++ c = a ++ (b ++ c).
Proof. induction a as [|x a IH]; simpl; [reflexivity | now rewrite IH]. Qed.

Lemma substring_prefix_length (e : nat) (s : string) :
  e <= String.length s -> String.length (substring 0 e s) = e.
Proof.
  revert s; induction e as [|e IH]; intros s He.
  - destruct s; reflexivity.
  - destruct s as [|c s]; simpl in *; [lia|].
    rewrite IH; [reflexivity | lia].
Qed.

(** ** Node's [path] *)

Example dirname_file : Path.dirname "/work/app/src/main.rs" = "/work/app/src".
Proof. reflexivity. Qed.
Example dirname_top : Path.dirname "/work" = "/".
Proof. reflexivity. Qed.
Example dirname_root : Path.dirname "/" = "/".
Proof. reflexivity. Qed.
Example dirname_relative : Path.dirname "main.rs" = ".".
Proof. reflexivity. Qed.
Example dirname_dot : Path.dirname "." = ".".
Proof. reflexivity. Qed.
Example dirname_trailing : Path.dirname "/work/app/" = "/work".
Proof. reflexivity. Qed.
Example dirname_two_slashes : Path.dirname "//work" = "//".
Proof. reflexivity. Qed.
Example join_dir : Path.join ["/work/app"; "Cargo.toml"] = "/work/app/Cargo.toml".
Proof. reflexivity. Qed.
Example join_root : Path.join ["/"; "Cargo.toml"] = "/Cargo.toml".
Proof. reflexivity. Qed.
Example join_dot : Path.join ["."; "setup.py"] = "setup.py".
Proof. reflexivity. Qed.
Example join_dotdot : Path.join ["/work/app/../lib"; "setup.py"] = "/work/lib/setup.py".
Proof. reflexivity. Qed.
Example join_three : Path.join ["/ext"; "bin"; "llm-cocop"] = "/ext/bin/llm-cocop".
Proof. reflexivity. Qed.
Example dirname_empty : Path.dirname "" = ".".
Proof. reflexivity. Qed.
Example dirname_doubled_separator : Path.dirname "src//main.rs" = "src/".
Proof. reflexivity. Qed.
Example dirname_only_slashes : Path.dirname "//" = "/".
Proof. reflexivity. Qed.
Example join_empty_first : Path.join [""; "Cargo.toml"] = "Cargo.toml".
Proof. reflexivity. Qed.
Example join_above_root : Path.join ["/.."; "Cargo.toml"] = "/Cargo.toml".
Proof. reflexivity. Qed.
Example join_relative_above : Path.join ["../.."; "setup.py"] = "../../setup.py".
Proof. reflexivity. Qed.

Lemma dirname_scan_bound (p : string) (i : nat) (m : bool) (e : nat) :
  Path.dirname_scan p i m = Some e ->
  1 <= e <= i /\ (m = true -> e < i).
Proof.
  revert m; induction i as [|i IH]; intros m H; simpl in H; [discriminate|].
  destruct (Path.isSlashAt p (S i)).
  - destruct m.
    + apply IH in H. destruct H as [H1 H2]. specialize (H2 eq_refl). lia.
    + injection H as <-. split; [lia | discriminate].
  - apply IH in H. destruct H as [H1 _]. lia.
Qed.

(** Where [dirname] comes out of, case by case. *)
Lemma dirname_cases (p : string) :
  Path.dirname p = "." \/ Path.dirname p = "/"
  \/ (Path.dirname p = "//" /\ 3 <= String.length p)
  \/ (1 <= String.length (Path.dirname p) < String.length p).
Proof.
  unfold Path.dirname.
  destruct (String.length p =? 0)%nat eqn:E0; [now left|].
  apply Nat.eqb_neq in E0.
  destruct (Path.dirname_scan p (String.length p - 1) true) as [e|] eqn:Es.
  - apply dirname_scan_bound in Es. destruct Es as [H1 H2].
    specialize (H2 eq_refl).
    destruct (Path.isSlashAt p 0 && (e =? 1)%nat).
    + right; right; left. split; [reflexivity | lia].
    + right; right; right. rewrite substring_prefix_length; lia.
  - destruct (Path.isSlashAt p 0); [right; left | left]; reflexivity.
Qed.

Lemma dirname_nonempty (p : string) : Path.dirname p <> "".
Proof.
  destruct (dirname_cases p) as [H|[H|[[H _]|H]]];
    try (rewrite H; discriminate).
  intro E; rewrite E in H; simpl in H; lia.
Qed.

(** Unless [p] or its parent is its own parent, the parent is shorter. *)
Lemma dirname_shrinks (p : string) :
  Path.dirname (Path.dirname p) = Path.dirname p
  \/ String.length (Path.dirname p) < String.length p.
Proof.
  destruct (dirname_cases p) as [H|[H|[[H L]|H]]].
  - left; rewrite H; reflexivity.
  - left; rewrite H; reflexivity.
  - right; rewrite H; simpl; lia.
  - right; lia.
Qed.

Lemma normalize_nonempty (p : string) : Path.normalize p <> "".
Proof.
  unfold Path.normalize.
  destruct (String.length p =? 0)%nat; [discriminate|].
  set (q := String.concat "/" _).
  destruct (String.length q =? 0)%nat eqn:Eq.
  - destruct (Path.isSlashAt p 0); [discriminate|].
    destruct (Path.isSlashAt p (String.length p - 1)); discriminate.
  - destruct (Path.isSlashAt p 0); [discriminate|].
    destruct (Path.isSlashAt p (String.length p - 1)).
    + intro H. apply (f_equal String.length) in H.
      rewrite length_append in H. simpl in H. lia.
    + intro H. rewrite H in Eq. discriminate.
Qed.

Lemma join_nonempty (args : list string) : Path.join args <> "".
Proof.
  unfold Path.join.
  destruct (filter _ args); [discriminate | apply normalize_nonempty].
Qed.

Lemma truthy_join (args : list string) : truthy (Some (Path.join args)) = true.
Proof.
  simpl. apply negb_true_iff, String.eqb_neq, join_nonempty.
Qed.

(** ** One directory *)

Lemma visit_result (fs : FS) (d : string) (st : State) :
  cargoToml (result (visit fs d st))
    = record (cargoToml (result st)) (cargoAt fs d)
  /\ pythonProject (result (visit fs d st))
    = record (pythonProject (result st)) (pythonAt fs d).
Proof. visit_cases fs d st; split; reflexivity. Qed.

(** The calls of one iteration: the Rust manifest, then the Python
    candidates in their order, up to the one that is recorded. *)
Lemma visit_trace (fs : FS) (d : string) (st : State) :
  trace (visit fs d st)
  = (trace st ++ Enter d :: ExistsSync (Path.join [d; "Cargo.toml"])
       :: map ExistsSync
            (if truthy (pythonProject (result st)) then pythonCandidates d
             else uptoFirst (existsSync fs) (pythonCandidates d)))%list.
Proof.
  visit_cases fs d st; repeat rewrite <- app_assoc; reflexivity.
Qed.

Lemma uptoFirst_firstn (f : string -> bool) (l : list string) :
  l <> [] ->
  exists k, 1 <= k <= List.length l /\ uptoFirst f l = firstn k l.
Proof.
  induction l as [|x l IH]; intros Hl; [contradiction|]. simpl.
  destruct (f x).
  - exists 1. split; [lia | now destruct l].
  - destruct l as [|y l].
    + exists 1. split; [simpl; lia | reflexivity].
    + destruct IH as (k & Hk & E); [discriminate|].
      exists (S k). split; [simpl in *; lia | simpl; now rewrite <- E].
Qed.

Lemma visit_checks (fs : FS) (d : string) (st : State) :
  exists k, 1 <= k <= 3 /\ trace (visit fs d st) = (trace st ++ checks d k)%list.
Proof.
  rewrite visit_trace. unfold checks.
  destruct (truthy (pythonProject (result st))).
  - exists 3. split; [lia | reflexivity].
  - destruct (uptoFirst_firstn (existsSync fs) (pythonCandidates d))
      as (k & Hk & ->); [discriminate|].
    exists k. split; [exact Hk | reflexivity].
Qed.

Lemma entered_app (a b : list event) :
  entered (a ++ b) = (entered a ++ entered b)%list.
Proof. apply flat_map_app. Qed.

Lemma entered_checks (d : string) (k : nat) : entered (checks d k) = [d].
Proof.
  unfold checks. simpl. f_equal.
  induction (firstn k (pythonCandidates d)) as [|x l IH]; [reflexivity | exact IH].
Qed.

Lemma visit_entered (fs : FS) (d : string) (st : State) :
  entered (trace (visit fs d st)) = (entered (trace st) ++ [d])%list.
Proof.
  destruct (visit_checks fs d st) as (k & _ & ->).
  now rewrite entered_app, entered_checks.
Qed.

Lemma truthy_record (before here : option string) :
  truthy before = true -> record before here = before.
Proof. unfold record; now intros ->. Qed.

Lemma cargoAt_truthy (fs : FS) (d p : string) :
  cargoAt fs d = Some p -> truthy (Some p) = true.
Proof.
  unfold cargoAt. destruct (existsSync fs _); [|discriminate].
  intros [= <-]. apply truthy_join.
Qed.

Lemma pythonAt_truthy (fs : FS) (d p : string) :
  pythonAt fs d = Some p -> truthy (Some p) = true.
Proof.
  unfold pythonAt. simpl.
  repeat (destruct (existsSync fs _); [intros [= <-]; apply truthy_join|]).
  discriminate.
Qed.

Lemma firstSome_snoc (f : string -> option string) (ds : list string) (d : string) :
  firstSome f (ds ++ [d])
  = match firstSome f ds with Some p => Some p | None => f d end.
Proof.
  induction ds as [|x ds IH]; simpl.
  - destruct (f d); reflexivity.
  - destruct (f x); [reflexivity | apply IH].
Qed.

Lemma firstSome_app (f : string -> option string) (a b : list string) :
  firstSome f (a ++ b)
  = match firstSome f a with Some p => Some p | None => firstSome f b end.
Proof.
  induction a as [|x a IH]; simpl.
  - destruct (firstSome f b); reflexivity.
  - destruct (f x); [reflexivity | apply IH].
Qed.

Lemma firstSome_truthy (f : string -> option string) (ds : list string) (p : string) :
  (forall d q, f d = Some q -> truthy (Some q) = true) ->
  firstSome f ds = Some p -> truthy (Some p) = true.
Proof.
  intros Hf. induction ds as [|x ds IH]; simpl; [discriminate|].
  destruct (f x) eqn:E; [intros [= <-]; eapply Hf; eauto | exact IH].
Qed.

Lemma record_firstSome (f : string -> option string) (ds : list string) (d : string) :
  (forall d q, f d = Some q -> truthy (Some q) = true) ->
  record (firstSome f ds) (f d) = firstSome f (ds ++ [d]).
Proof.
  intros Hf. rewrite firstSome_snoc. unfold record.
  destruct (firstSome f ds) as [p|] eqn:E.
  - rewrite (firstSome_truthy _ _ _ Hf E). reflexivity.
  - simpl. destruct (f d); reflexivity.
Qed.

Lemma firstWins_initial (fs : FS) : firstWins fs initial.
Proof. split; reflexivity. Qed.

Lemma firstWins_emit (fs : FS) (p : string) (st : State) :
  firstWins fs st -> firstWins fs (emit (StatSync p) st).
Proof.
  unfold firstWins, emit; simpl. rewrite entered_app; simpl.
  now rewrite app_nil_r.
Qed.

Lemma firstWins_visit (fs : FS) (d : string) (st : State) :
  firstWins fs st -> firstWins fs (visit fs d st).
Proof.
  intros [Hc Hp]. destruct (visit_result fs d st) as [Rc Rp].
  unfold firstWins. rewrite Rc, Rp, visit_entered, Hc, Hp.
  split; apply record_firstSome.
  - apply cargoAt_truthy.
  - apply pythonAt_truthy.
Qed.

(** ** The upward walk *)

Lemma while_loop_unfold (fuel : nat) (fs : FS) (d : string) (st : State) :
  while_loop (S fuel) fs d st
  = if d =? "" then Some st
    else if foundBoth (visit fs d st) then Some (visit fs d st)
    else if Path.dirname d =? d then Some (visit fs d st)
    else while_loop fuel fs (Path.dirname d) (visit fs d st).
Proof. reflexivity. Qed.

(** Induction over the iterations of a walk that finishes. *)
Lemma while_loop_ind (fs : FS) (P : string -> State -> State -> Prop) :
  (forall st, P "" st st) ->
  (forall d st, d <> "" -> foundBoth (visit fs d st) = true ->
     P d st (visit fs d st)) ->
  (forall d st, d <> "" -> foundBoth (visit fs d st) = false ->
     Path.dirname d = d -> P d st (visit fs d st)) ->
  (forall d st st', d <> "" -> foundBoth (visit fs d st) = false ->
     Path.dirname d <> d ->
     P (Path.dirname d) (visit fs d st) st' -> P d st st') ->
  forall fuel d st st', while_loop fuel fs d st = Some st' -> P d st st'.
Proof.
  intros Hempty Hboth Hroot Hup.
  induction fuel as [|fuel IH]; intros d st st' H; [discriminate|].
  rewrite while_loop_unfold in H.
  destruct (String.eqb_spec d "") as [->|Hd].
  { injection H as <-. apply Hempty. }
  destruct (foundBoth (visit fs d st)) eqn:Eb.
  { injection H as <-. now apply Hboth. }
  destruct (String.eqb_spec (Path.dirname d) d) as [Er|Er].
  { injection H as <-. now apply Hroot. }
  apply Hup; auto.
Qed.

(** The walk finishes within the fuel that [processPath] grants it. *)
Lemma while_loop_enough (fs : FS) (fuel : nat) :
  forall d st,
    (Path.dirname d = d /\ 1 <= fuel) \/ String.length d + 2 <= fuel ->
    exists st', while_loop fuel fs d st = Some st'.
Proof.
  induction fuel as [|fuel IH]; intros d st H; [lia|].
  rewrite while_loop_unfold.
  destruct (d =? ""); [eauto|].
  destruct (foundBoth (visit fs d st)); [eauto|].
  destruct (String.eqb_spec (Path.dirname d) d) as [Er|Er]; [eauto|].
  apply IH.
  destruct H as [[H _]|H]; [contradiction|].
  destruct (dirname_shrinks d) as [Hs|Hs]; [left | right]; split || lia;
    [exact Hs | lia].
Qed.

(** More fuel does not change the outcome of a walk that finishes. *)
Lemma while_loop_more (fs : FS) (fuel : nat) :
  forall fuel' d st st',
    while_loop fuel fs d st = Some st' -> fuel <= fuel' ->
    while_loop fuel' fs d st = Some st'.
Proof.
  induction fuel as [|fuel IH]; intros fuel' d st st' H Hle; [discriminate|].
  destruct fuel' as [|fuel']; [lia|].
  rewrite while_loop_unfold in *.
  destruct (d =? ""); [exact H|].
  destruct (foundBoth (visit fs d st)); [exact H|].
  destruct (Path.dirname d =? d); [exact H|].
  apply IH; [exact H | lia].
Qed.

Lemma while_loop_firstWins (fs : FS) (fuel : nat) (d : string) (st st' : State) :
  while_loop fuel fs d st = Some st' -> firstWins fs st -> firstWins fs st'.
Proof.
  revert fuel d st st'.
  apply (while_loop_ind fs (fun _ st st' => firstWins fs st -> firstWins fs st'));
    auto using firstWins_visit.
Qed.

(** The trace only grows. *)
Lemma while_loop_trace (fs : FS) (fuel : nat) (d : string) (st st' : State) :
  while_loop fuel fs d st = Some st' ->
  exists more, trace st' = (trace st ++ more)%list.
Proof.
  revert fuel d st st'.
  apply (while_loop_ind fs (fun _ st st' =>
           exists more, trace st' = (trace st ++ more)%list)).
  - intros st. exists []. now rewrite app_nil_r.
  - intros d st _ _. rewrite visit_trace. eauto.
  - intros d st _ _ _. rewrite visit_trace. eauto.
  - intros d st st' _ _ _ [more ->].
    rewrite visit_trace, <- app_assoc. eauto.
Qed.

(** The directories a walk enters: an initial segment of the ancestors
    of its start, cut short only when both kinds are found, and ending
    at a directory that is its own parent otherwise. *)
Lemma while_loop_entered (fs : FS) (fuel : nat) :
  forall d st st',
    while_loop fuel fs d st = Some st' -> d <> "" ->
    exists ds rest,
      entered (trace st') = (entered (trace st) ++ ds)%list
      /\ ancestors fuel d = (ds ++ rest)%list
      /\ ds <> []
      /\ (rest = [] \/ foundBoth st' = true)
      /\ (foundBoth st' = true
          \/ Path.dirname (last ds "") = last ds "").
Proof.
  induction fuel as [|fuel IH]; intros d st st' H Hd; [discriminate|].
  rewrite while_loop_unfold in H.
  destruct (String.eqb_spec d "") as [|_]; [contradiction|].
  simpl ancestors.
  destruct (foundBoth (visit fs d st)) eqn:Eb.
  { injection H as <-. exists [d]. eexists.
    rewrite visit_entered. repeat split; auto. discriminate. }
  destruct (String.eqb_spec (Path.dirname d) d) as [Er|Er].
  { injection H as <-. exists [d], [].
    rewrite visit_entered. repeat split; auto. discriminate. }
  destruct (IH _ _ _ H (dirname_nonempty d))
    as (ds & rest & He & Ha & Hne & Hrest & Hlast).
  exists (d :: ds), rest.
  rewrite He, visit_entered, <- app_assoc, Ha.
  repeat split; auto; try discriminate.
  destruct Hlast as [Hl|Hl]; [now left | right].
  destruct ds; [contradiction | exact Hl].
Qed.

Lemma truthy_firstSome_cargo (fs : FS) (ds : list string) :
  truthy (firstSome (cargoAt fs) ds) = isSome (firstSome (cargoAt fs) ds).
Proof.
  destruct (firstSome (cargoAt fs) ds) as [p|] eqn:E; [|reflexivity].
  exact (firstSome_truthy _ _ _ (cargoAt_truthy fs) E).
Qed.

Lemma truthy_firstSome_python (fs : FS) (ds : list string) :
  truthy (firstSome (pythonAt fs) ds) = isSome (firstSome (pythonAt fs) ds).
Proof.
  destruct (firstSome (pythonAt fs) ds) as [p|] eqn:E; [|reflexivity].
  exact (firstSome_truthy _ _ _ (pythonAt_truthy fs) E).
Qed.

Lemma foundBoth_firstWins (fs : FS) (st : State) :
  firstWins fs st -> foundBoth st = bothAt fs (entered (trace st)).
Proof.
  intros [Hc Hp]. unfold foundBoth, bothAt.
  now rewrite Hc, Hp, truthy_firstSome_cargo, truthy_firstSome_python.
Qed.

Lemma isSome_firstSome_app (f : string -> option string) (a b : list string) :
  isSome (firstSome f a) = true -> firstSome f (a ++ b) = firstSome f a.
Proof.
  rewrite firstSome_app. destruct (firstSome f a); [reflexivity | discriminate].
Qed.


(** The walk enters the ancestors of its start one by one and stops at
    the one that completes both kinds. *)
Lemma while_loop_stop (fs : FS) (fuel : nat) :
  forall d st st',
    while_loop fuel fs d st = Some st' -> d <> "" -> firstWins fs st ->
    entered (trace st')
    = (entered (trace st)
       ++ stopWhenBoth fs (entered (trace st)) (ancestors fuel d))%list.
Proof.
  induction fuel as [|fuel IH]; intros d st st' H Hd Hw; [discriminate|].
  rewrite while_loop_unfold in H.
  destruct (String.eqb_spec d "") as [|_]; [contradiction|].
  pose proof (firstWins_visit fs d st Hw) as Hv.
  pose proof (foundBoth_firstWins fs _ Hv) as Hb.
  rewrite visit_entered in Hb.
  simpl. rewrite <- Hb.
  destruct (foundBoth (visit fs d st)).
  { injection H as <-. apply visit_entered. }
  destruct (String.eqb_spec (Path.dirname d) d) as [Er|Er].
  { injection H as <-. apply visit_entered. }
  rewrite (IH _ _ _ H (dirname_nonempty d) Hv), visit_entered.
  now rewrite <- app_assoc.
Qed.

Lemma checked_app (d : string) (a b c : list event) :
  checked d b -> checked d (a ++ b ++ c).
Proof.
  intros (pre & k & post & Hk & ->).
  exists (a ++ pre)%list, k, (post ++ c)%list. split; [exact Hk|].
  now rewrite <- !app_assoc.
Qed.

Lemma checked_here (d : string) (k : nat) (post : list event) :
  1 <= k <= 3 -> checked d (checks d k ++ post).
Proof. intros Hk. exists [], k, post. split; [exact Hk | reflexivity]. Qed.

(** What a walk adds to the trace: for every directory it enters, the
    checks of that directory. *)
Lemma while_loop_checked (fs : FS) (fuel : nat) (d : string) (st st' : State) :
  while_loop fuel fs d st = Some st' ->
  exists more,
    trace st' = (trace st ++ more)%list
    /\ forall x, In x (entered more) -> checked x more.
Proof.
  revert fuel d st st'.
  assert (Hone : forall d st, exists more,
             trace (visit fs d st) = (trace st ++ more)%list
             /\ forall x, In x (entered more) -> checked x more).
  { intros d st. destruct (visit_checks fs d st) as (k & Hk & E).
    exists (checks d k). split; [exact E|].
    intros x Hx. rewrite entered_checks in Hx. destruct Hx as [<-|[]].
    rewrite <- (app_nil_r (checks d k)). now apply checked_here. }
  apply (while_loop_ind fs (fun _ st st' => exists more,
           trace st' = (trace st ++ more)%list
           /\ forall x, In x (entered more) -> checked x more)).
  - intros st. exists []. split; [now rewrite app_nil_r | intros x []].
  - intros d st _ _. apply Hone.
  - intros d st _ _ _. apply Hone.
  - intros d st st' _ _ _ (more & E & Hm).
    destruct (visit_checks fs d st) as (k & Hk & Ev).
    exists (checks d k ++ more)%list. split.
    + now rewrite E, Ev, <- app_assoc.
    + intros x Hx. rewrite entered_app, entered_checks in Hx.
      destruct Hx as [<-|Hx]; [now apply checked_here|].
      specialize (Hm x Hx).
      rewrite <- (app_nil_r more). now apply checked_app.
Qed.

Lemma ancestors_nth (n : nat) :
  forall d k x,
    nth_error (ancestors n d) k = Some x -> x = Nat.iter k Path.dirname d.
Proof.
  induction n as [|n IH]; intros d k x H; simpl in H.
  - destruct k; discriminate.
  - destruct k as [|k]; simpl in H.
    + now injection H as <-.
    + rewrite Nat.iter_succ_r.
      destruct (Path.dirname d =? d); [destruct k; discriminate|].
      now apply IH.
Qed.

Lemma ancestors_length (n : nat) (d : string) : List.length (ancestors n d) <= n.
Proof.
  revert d; induction n as [|n IH]; intros d; simpl; [lia|].
  destruct (Path.dirname d =? d); simpl; [lia|].
  specialize (IH (Path.dirname d)). lia.
Qed.

Lemma kept_refl (st : State) : kept st st.
Proof. split; reflexivity. Qed.

Lemma kept_trans (a b c : State) : kept a b -> kept b c -> kept a c.
Proof.
  intros [H1 H2] [H3 H4]. split; intros H.
  - rewrite H3, H1; auto. now rewrite H1.
  - rewrite H4, H2; auto. now rewrite H2.
Qed.

Lemma kept_visit (fs : FS) (d : string) (st : State) : kept st (visit fs d st).
Proof.
  destruct (visit_result fs d st) as [Rc Rp].
  split; intros H; [rewrite Rc | rewrite Rp]; now apply truthy_record.
Qed.

Lemma while_loop_kept (fs : FS) (fuel : nat) (d : string) (st st' : State) :
  while_loop fuel fs d st = Some st' -> kept st st'.
Proof.
  revert fuel d st st'.
  apply (while_loop_ind fs (fun _ st st' => kept st st'));
    eauto using kept_refl, kept_visit, kept_trans.
Qed.

(** ** One input path *)

Lemma processPath_threw (fs : FS) (p message : string) (st : State) :
  statSync fs p = inr message ->
  processPath fs p st = Threw message (emit (StatSync p) st).
Proof. unfold processPath. now intros ->. Qed.

Lemma processPath_returned (fs : FS) (p : string) (stats : Stats) (st : State) :
  statSync fs p = inl stats ->
  exists st',
    processPath fs p st = Returned st'
    /\ while_loop (walk_fuel (startDir stats p)) fs (startDir stats p)
         (emit (StatSync p) st) = Some st'.
Proof.
  unfold processPath. intros ->.
  destruct (while_loop_enough fs (walk_fuel (startDir stats p))
              (startDir stats p) (emit (StatSync p) st)) as [st' E].
  { right. unfold walk_fuel. lia. }
  rewrite E. eauto.
Qed.

Lemma processPath_cases (fs : FS) (p : string) (st : State) :
  (exists message, statSync fs p = inr message
     /\ processPath fs p st = Threw message (emit (StatSync p) st))
  \/ (exists stats st', statSync fs p = inl stats
        /\ processPath fs p st = Returned st'
        /\ while_loop (walk_fuel (startDir stats p)) fs (startDir stats p)
             (emit (StatSync p) st) = Some st').
Proof.
  destruct (statSync fs p) as [stats|message] eqn:E.
  - right. destruct (processPath_returned fs p stats st E) as (st' & H1 & H2).
    exists stats, st'. auto.
  - left. exists message. split; [reflexivity | now apply processPath_threw].
Qed.

Lemma entered_emit_stat (p : string) (st : State) :
  entered (trace (emit (StatSync p) st)) = entered (trace st).
Proof. unfold emit; simpl. rewrite entered_app; simpl. apply app_nil_r. Qed.

Lemma kept_emit (e : event) (st : State) : kept st (emit e st).
Proof. split; reflexivity. Qed.


(** The directories one input path adds: those of [ancestry], up to the
    one that completes both kinds. *)
Lemma processPath_stop (fs : FS) (p : string) (stats : Stats) (st st' : State) :
  statSync fs p = inl stats ->
  processPath fs p st = Returned st' ->
  firstWins fs st ->
  firstWins fs st'
  /\ entered (trace st')
     = (entered (trace st)
        ++ stopWhenBoth fs (entered (trace st)) (ancestry (startDir stats p)))%list.
Proof.
  intros Es Hp Hw.
  destruct (processPath_returned fs p stats st Es) as (st1 & E1 & Hl).
  rewrite E1 in Hp. injection Hp as <-.
  pose proof (firstWins_emit fs p st Hw) as Hw'.
  split; [exact (while_loop_firstWins fs _ _ _ _ Hl Hw')|].
  unfold ancestry.
  destruct (String.eqb_spec (startDir stats p) "") as [E|E].
  - rewrite E in Hl. simpl in Hl. injection Hl as <-.
    rewrite entered_emit_stat. simpl. now rewrite app_nil_r.
  - rewrite (while_loop_stop fs _ _ _ _ Hl E Hw'). now rewrite entered_emit_stat.
Qed.

(** ** All input paths *)

Lemma stopWhenBoth_cut (fs : FS) (a b : list string) :
  forall seen,
    bothAt fs seen = false ->
    bothAt fs (seen ++ stopWhenBoth fs seen a) = true ->
    stopWhenBoth fs seen (a ++ b) = stopWhenBoth fs seen a.
Proof.
  induction a as [|d a IH]; intros seen H0 H1; simpl in *.
  - rewrite app_nil_r in H1. congruence.
  - destruct (bothAt fs (seen ++ [d])) eqn:E; [reflexivity|].
    f_equal. apply IH; [exact E|].
    now rewrite <- app_assoc.
Qed.

Lemma stopWhenBoth_go (fs : FS) (a b : list string) :
  forall seen,
    bothAt fs (seen ++ stopWhenBoth fs seen a) = false ->
    stopWhenBoth fs seen (a ++ b)
    = (stopWhenBoth fs seen a
       ++ stopWhenBoth fs (seen ++ stopWhenBoth fs seen a) b)%list.
Proof.
  induction a as [|d a IH]; intros seen H; simpl in *.
  - now rewrite app_nil_r.
  - destruct (bothAt fs (seen ++ [d])) eqn:E; [congruence|].
    f_equal. rewrite IH.
    + now rewrite <- app_assoc.
    + now rewrite <- app_assoc.
Qed.

Lemma stopWhenBoth_prefix (fs : FS) (todo : list string) :
  forall seen, exists rest,
    todo = (stopWhenBoth fs seen todo ++ rest)%list
    /\ (rest = [] \/ bothAt fs (seen ++ stopWhenBoth fs seen todo) = true).
Proof.
  induction todo as [|d todo IH]; intros seen; simpl.
  - exists []. auto.
  - destruct (bothAt fs (seen ++ [d])) eqn:E.
    + exists todo. split; [reflexivity | now right].
    + destruct (IH (seen ++ [d])%list) as (rest & E1 & E2).
      exists rest. split; [simpl; now rewrite <- E1|].
      destruct E2 as [E2|E2]; [now left | right].
      now rewrite <- app_assoc in E2.
Qed.

Lemma for_paths_not_diverged (fs : FS) (paths : list string) :
  forall st, for_paths fs paths st <> Diverged.
Proof.
  induction paths as [|p paths IH]; intros st; simpl; [discriminate|].
  destruct (processPath_cases fs p st)
    as [(m & _ & ->)|(stats & st' & _ & -> & _)]; [discriminate|].
  destruct (foundBoth st'); [discriminate | apply IH].
Qed.

Lemma for_paths_kept (fs : FS) (paths : list string) :
  forall st st', stateOf (for_paths fs paths st) = Some st' -> kept st st'.
Proof.
  induction paths as [|p paths IH]; intros st st' H; simpl in H.
  - injection H as <-. apply kept_refl.
  - destruct (processPath_cases fs p st)
      as [(m & _ & E)|(stats & st1 & _ & E & Hl)]; rewrite E in H.
    + injection H as <-. apply kept_emit.
    + assert (K : kept st st1).
      { eapply kept_trans; [apply (kept_emit (StatSync p))|].
        eapply while_loop_kept; eauto. }
      destruct (foundBoth st1).
      * injection H as <-. exact K.
      * eapply kept_trans; eauto.
Qed.

Lemma for_paths_stop (fs : FS) (paths : list string) :
  forall st st',
    for_paths fs paths st = Returned st' ->
    firstWins fs st -> foundBoth st = false ->
    firstWins fs st'
    /\ entered (trace st')
       = (entered (trace st)
          ++ stopWhenBoth fs (entered (trace st)) (searchOrder fs paths))%list.
Proof.
  induction paths as [|p paths IH]; intros st st' H Hw Hb; simpl in H.
  - injection H as <-. split; [exact Hw | simpl; now rewrite app_nil_r].
  - destruct (processPath_cases fs p st)
      as [(m & _ & E)|(stats & st1 & Es & E & _)]; rewrite E in H;
      [discriminate|].
    destruct (processPath_stop fs p stats st st1 Es E Hw) as [Hw1 He1].
    pose proof (foundBoth_firstWins fs st1 Hw1) as Hb1.
    rewrite He1 in Hb1.
    unfold searchOrder. simpl. rewrite Es. fold (searchOrder fs paths).
    destruct (foundBoth st1) eqn:B.
    + injection H as <-. split; [exact Hw1|].
      rewrite He1. f_equal. symmetry. apply stopWhenBoth_cut; auto.
      now rewrite <- (foundBoth_firstWins fs st Hw).
    + destruct (IH _ _ H Hw1 B) as [Hw' He'].
      split; [exact Hw'|].
      rewrite He', He1, <- app_assoc. f_equal.
      symmetry. apply stopWhenBoth_go. auto.
Qed.

Lemma last_app_nonempty (a b : list string) (x : string) :
  b <> [] -> last (a ++ b) x = last b x.
Proof.
  intros Hb. induction a as [|y a IH]; [reflexivity|].
  simpl. rewrite IH. destruct (a ++ b)%list eqn:E; [|reflexivity].
  apply app_eq_nil in E. destruct E as [_ E]. contradiction.
Qed.

Lemma stopWhenBoth_last (fs : FS) (todo : list string) :
  forall seen a d b,
    stopWhenBoth fs seen todo = (a ++ d :: b)%list ->
    bothAt fs (seen ++ a ++ [d]) = true -> b = [].
Proof.
  induction todo as [|x todo IH]; intros seen a d b H Hb; simpl in H.
  - destruct a; discriminate.
  - destruct a as [|y a]; simpl in *.
    + injection H as -> H. rewrite Hb in H. now subst b.
    + injection H as -> H.
      destruct (bothAt fs (seen ++ [y])) eqn:E; [destruct a; discriminate|].
      eapply IH; [exact H|]. now rewrite <- app_assoc.
Qed.

Lemma detect_firstWins (fs : FS) (paths : list string) (st : State) :
  detectProjectFiles fs paths = Returned st ->
  firstWins fs st
  /\ entered (trace st) = stopWhenBoth fs [] (searchOrder fs paths).
Proof.
  intros H. unfold detectProjectFiles in H.
  exact (for_paths_stop fs paths initial st H (firstWins_initial fs) eq_refl).
Qed.

(** ** The claims about the detection *)

(** C1, as the code has it.  In every directory entered, the Python
    candidates are probed in the order [pyproject.toml], [setup.py],
    [requirements.txt]: up to the first that exists when no Python
    project file is recorded yet, and that one is then recorded; all
    three, with the record left as it is, when one is recorded already.
    The Python project file a run returns is the one so chosen in the
    first directory entered that has any of the three. *)
Theorem python_priority_order (fs : FS) :
  (forall d,
     pythonCandidates d
     = [Path.join [d; "pyproject.toml"]; Path.join [d; "setup.py"];
        Path.join [d; "requirements.txt"]])
  /\ (forall d st,
        trace (visit fs d st)
        = (trace st ++ Enter d :: ExistsSync (Path.join [d; "Cargo.toml"])
             :: map ExistsSync
                  (if truthy (pythonProject (result st))
                   then pythonCandidates d
                   else uptoFirst (existsSync fs) (pythonCandidates d)))%list
        /\ pythonProject (result (visit fs d st))
           = if truthy (pythonProject (result st))
             then pythonProject (result st)
             else match find (existsSync fs) (pythonCandidates d) with
                  | Some p => Some p
                  | None => pythonProject (result st)
                  end)
  /\ (forall paths st,
        detectProjectFiles fs paths = Returned st ->
        pythonProject (result st)
        = firstSome (fun d => find (existsSync fs) (pythonCandidates d))
            (entered (trace st))).
Proof.
  split; [reflexivity|]. split.
  - intros d st. split; [apply visit_trace|].
    destruct (visit_result fs d st) as [_ ->]. reflexivity.
  - intros paths st H. apply detect_firstWins in H. apply H.
Qed.

Lemma ancestors_root (n : nat) :
  forall d,
    (Path.dirname d = d /\ 1 <= n) \/ String.length d + 2 <= n ->
    Path.dirname (last (ancestors n d) "") = last (ancestors n d) "".
Proof.
  induction n as [|n IH]; intros d H; [lia|].
  cbn [ancestors].
  destruct (String.eqb_spec (Path.dirname d) d) as [Er|Er]; [exact Er|].
  assert (Hp : (Path.dirname (Path.dirname d) = Path.dirname d /\ 1 <= n)
               \/ String.length (Path.dirname d) + 2 <= n).
  { destruct H as [[H _]|H]; [contradiction|].
    destruct (dirname_shrinks d) as [Hs|Hs]; [left; split; [exact Hs | lia]|].
    right. lia. }
  specialize (IH _ Hp).
  destruct n as [|n]; [lia|].
  change (last (d :: ancestors (S n) (Path.dirname d)) "")
    with (last (ancestors (S n) (Path.dirname d)) "").
  exact IH.
Qed.

(** C2.  Each field of the result holds at most one path; once a field
    is set, the directories visited later (higher up, or for a later
    input path) leave it as it is; and what a run returns for a kind is
    the manifest of the first directory that has one, in the order: the
    first input path's directory and its ancestors, nearest first and up
    to the root, then the second input path's, and so on. *)
Theorem first_match_wins (fs : FS) (paths : list string) :
  (forall st st',
     stateOf (for_paths fs paths st) = Some st' ->
     (truthy (cargoToml (result st)) = true ->
      cargoToml (result st') = cargoToml (result st))
     /\ (truthy (pythonProject (result st)) = true ->
         pythonProject (result st') = pythonProject (result st)))
  /\ (forall st,
        detectProjectFiles fs paths = Returned st ->
        cargoToml (result st) = firstSome (cargoAt fs) (searchOrder fs paths)
        /\ pythonProject (result st)
           = firstSome (pythonAt fs) (searchOrder fs paths))
  /\ (forall d,
        d <> "" ->
        (forall k x, nth_error (ancestry d) k = Some x ->
                     x = Nat.iter k Path.dirname d)
        /\ nth_error (ancestry d) 0 = Some d
        /\ Path.dirname (last (ancestry d) "") = last (ancestry d) "").
Proof.
  split; [apply for_paths_kept|]. split.
  - intros st H. destruct (detect_firstWins fs paths st H) as [[Hc Hp] He].
    pose proof (foundBoth_firstWins fs st (conj Hc Hp)) as Hb.
    rewrite Hc, Hp, He.
    destruct (stopWhenBoth_prefix fs (searchOrder fs paths) [])
      as (rest & E & [->|B]).
    + rewrite app_nil_r in E. rewrite <- E. auto.
    + simpl in B. unfold bothAt in B. apply andb_true_iff in B.
      destruct B as [Bc Bp].
      rewrite E at 2 4. now rewrite !isSome_firstSome_app.
  - intros d Hd. unfold ancestry.
    destruct (String.eqb_spec d "") as [|_]; [contradiction|].
    split; [apply ancestors_nth|]. split.
    + unfold walk_fuel. rewrite Nat.add_comm. reflexivity.
    + apply ancestors_root. right. unfold walk_fuel. lia.
Qed.

(** C3.  The search for an input path starts at the directory that
    contains it when it is a file and at the path itself when it is a
    directory; the [k]-th directory entered after that is the [k]-th
    ancestor of the start; each directory entered is checked for the
    manifests; and the walk goes on until it has entered a directory
    that is its own parent, unless both kinds are found before. *)
Theorem walk_starts_and_climbs (fs : FS) (filePath : string) (stats : Stats)
    (st : State) :
  statSync fs filePath = inl stats ->
  filePath <> "" ->
  let start := if isFile stats then Path.dirname filePath else filePath in
  exists st' more,
    processPath fs filePath st = Returned st'
    /\ trace st' = (trace st ++ StatSync filePath :: more)%list
    /\ nth_error (entered more) 0 = Some start
    /\ (forall k d, nth_error (entered more) k = Some d ->
          d = Nat.iter k Path.dirname start)
    /\ (forall d, In d (entered more) -> checked d more)
    /\ (foundBoth st' = true
        \/ Path.dirname (last (entered more) "") = last (entered more) "").
Proof.
  intros Es Hne start.
  assert (Hstart : start <> "").
  { unfold start. destruct (isFile stats); [apply dirname_nonempty | exact Hne]. }
  destruct (processPath_returned fs filePath stats st Es) as (st' & Hp & Hl).
  fold start in Hl. unfold startDir in Hl. fold start in Hl.
  destruct (while_loop_checked fs _ _ _ _ Hl) as (more & Et & Hc).
  destruct (while_loop_entered fs _ _ _ _ Hl Hstart)
    as (ds & rest & He & Ha & Hds & _ & Hlast).
  assert (Hm : entered more = ds).
  { rewrite Et, entered_app in He. now apply app_inv_head in He. }
  exists st', more. rewrite Hm.
  assert (Hnth : forall k d, nth_error ds k = Some d ->
                   d = Nat.iter k Path.dirname start).
  { intros k d Hk. apply (ancestors_nth (walk_fuel start)).
    rewrite Ha, nth_error_app1; [exact Hk|].
    apply nth_error_Some. congruence. }
  repeat split.
  - exact Hp.
  - rewrite Et. unfold emit; simpl. now rewrite <- app_assoc.
  - destruct ds as [|d0 ds]; [contradiction|].
    simpl. f_equal. exact (Hnth 0 d0 eq_refl).
  - exact Hnth.
  - rewrite <- Hm. exact Hc.
  - exact Hlast.
Qed.

(** C4, as the code has it.  The search stops as soon as both kinds are
    found: the directories a run enters are those of the search order up
    to the one that completes both kinds, and none is entered after it.
    While only one kind is found the walk goes on, and every directory
    it enters is still probed for the kind already found, but what is
    recorded for that kind stays. *)
Theorem stops_when_both_found (fs : FS) :
  (forall paths st,
     detectProjectFiles fs paths = Returned st ->
     entered (trace st) = stopWhenBoth fs [] (searchOrder fs paths)
     /\ forall a d b,
          entered (trace st) = (a ++ d :: b)%list ->
          bothAt fs (a ++ [d]) = true -> b = [])
  /\ (forall d st,
        truthy (cargoToml (result st)) = true ->
        In (ExistsSync (Path.join [d; "Cargo.toml"])) (trace (visit fs d st))
        /\ cargoToml (result (visit fs d st)) = cargoToml (result st))
  /\ (forall d st,
        truthy (pythonProject (result st)) = true ->
        (forall p, In p (pythonCandidates d) ->
                   In (ExistsSync p) (trace (visit fs d st)))
        /\ pythonProject (result (visit fs d st)) = pythonProject (result st)).
Proof.
  repeat split.
  - now apply detect_firstWins.
  - intros a d b E B. apply detect_firstWins in H. destruct H as [_ H].
    rewrite H in E. exact (stopWhenBoth_last fs _ [] a d b E B).
  - rewrite visit_trace. apply in_or_app. right. simpl. auto.
  - now apply kept_visit.
  - intros p Hp. rewrite visit_trace, H. apply in_or_app. right.
    right. right. now apply in_map.
  - now apply kept_visit.
Qed.

(** C8.  The walk that starts at [d] leaves the loop within
    [walk_fuel d] iterations, whatever the filesystem, and more fuel
    changes nothing; it leaves at a directory that is its own parent
    unless both kinds are found before; so neither one input path nor a
    whole run fails to finish. *)
Theorem walk_terminates (fs : FS) :
  (forall d st fuel,
     walk_fuel d <= fuel ->
     exists st',
       while_loop fuel fs d st = Some st'
       /\ while_loop (walk_fuel d) fs d st = Some st'
       /\ List.length (entered (trace st'))
          <= List.length (entered (trace st)) + walk_fuel d
       /\ (d <> "" ->
           foundBoth st' = true
           \/ Path.dirname (last (entered (trace st')) "")
              = last (entered (trace st')) ""))
  /\ (forall filePath st, processPath fs filePath st <> Diverged)
  /\ (forall paths, detectProjectFiles fs paths <> Diverged).
Proof.
  repeat split.
  - intros d st fuel Hf.
    destruct (while_loop_enough fs (walk_fuel d) d st) as [st' E].
    { right. unfold walk_fuel. lia. }
    exists st'. split; [exact (while_loop_more fs _ _ _ _ _ E Hf)|].
    split; [exact E|].
    destruct (String.eqb_spec d "") as [->|Hd].
    { simpl in E. injection E as <-. split; [lia | contradiction]. }
    destruct (while_loop_entered fs _ _ _ _ E Hd)
      as (ds & rest & He & Ha & Hds & _ & Hlast).
    rewrite He. split.
    + rewrite length_app.
      pose proof (ancestors_length (walk_fuel d) d) as Hlen.
      rewrite Ha, length_app in Hlen. lia.
    + intros _. now rewrite last_app_nonempty.
  - intros filePath st.
    destruct (processPath_cases fs filePath st)
      as [(m & _ & ->)|(stats & st' & _ & -> & _)]; discriminate.
  - intros paths. apply for_paths_not_diverged.
Qed.

(** ** The regular expressions *)

Lemma stripPrefix_sound (text s s' : string) :
  Regex.stripPrefix text s = Some s' -> s = text ++ s'.
Proof.
  revert s; induction text as [|a text IH]; intros s H; simpl in *.
  - now injection H as <-.
  - destruct s as [|b s]; [discriminate|].
    destruct (Ascii.eqb_spec a b) as [<-|]; [|discriminate].
    f_equal. now apply IH.
Qed.

Lemma stripPrefix_complete (text s : string) :
  Regex.stripPrefix text (text ++ s) = Some s.
Proof.
  induction text as [|a text IH]; simpl; [reflexivity|].
  now rewrite Ascii.eqb_refl.
Qed.

Lemma append_snoc (a : string) (c : ascii) (b : string) :
  (a ++ String c "") ++ b = a ++ String c b.
Proof. now rewrite append_assoc. Qed.

Lemma plus_sound (k : Regex.cclass) (rest : string -> option (list string))
    (s : string) :
  forall taken caps,
    Regex.plus k rest s taken = Some caps ->
    exists v s' caps',
      v <> "" /\ allIn k v = true /\ s = v ++ s'
      /\ rest s' = Some caps' /\ caps = (taken ++ v) :: caps'.
Proof.
  induction s as [|c s IH]; intros taken caps H; simpl in H; [discriminate|].
  destruct (Regex.inClass k c) eqn:Ec; [|discriminate].
  destruct (Regex.plus k rest s (taken ++ String c "")) as [caps1|] eqn:Ep.
  - injection H as <-.
    destruct (IH _ _ Ep) as (v & s' & caps' & Hv & Ha & -> & Hr & ->).
    exists (String c v), s', caps'. simpl. rewrite Ec, Ha, append_snoc.
    repeat split; auto. discriminate.
  - destruct (rest s) as [caps'|] eqn:Er; [|discriminate].
    injection H as <-.
    exists (String c ""), s, caps'. simpl. rewrite Ec.
    repeat split; auto. discriminate.
Qed.

Lemma plus_complete (k : Regex.cclass) (rest : string -> option (list string))
    (v : string) :
  forall s' taken,
    v <> "" -> allIn k v = true -> rest s' <> None ->
    Regex.plus k rest (v ++ s') taken <> None.
Proof.
  induction v as [|c v IH]; intros s' taken Hv Ha Hr; [contradiction|].
  simpl in *. apply andb_true_iff in Ha. destruct Ha as [Ec Ha].
  rewrite Ec.
  destruct (Regex.plus k rest (v ++ s') (taken ++ String c "")) eqn:Ep;
    [discriminate|].
  destruct v as [|c' v].
  - simpl. destruct (rest s'); [discriminate | contradiction].
  - exfalso. revert Ep. apply IH; auto. discriminate.
Qed.

(** A group at the end of the expression takes the whole run of
    characters of its class. *)
Lemma plus_greedy (k : Regex.cclass) (rest : string -> option (list string))
    (s : string) :
  (forall x, rest x = Some []) ->
  forall taken caps,
    Regex.plus k rest s taken = Some caps ->
    spanClass k s <> "" /\ caps = [taken ++ spanClass k s].
Proof.
  intros Hrest.
  induction s as [|c s IH]; intros taken caps H; simpl in H; [discriminate|].
  simpl. destruct (Regex.inClass k c) eqn:Ec; [|discriminate].
  split; [discriminate|].
  destruct (Regex.plus k rest s (taken ++ String c "")) as [caps1|] eqn:Ep.
  - injection H as <-. destruct (IH _ _ Ep) as [_ ->].
    now rewrite append_snoc.
  - rewrite Hrest in H. injection H as <-.
    assert (E : spanClass k s = "").
    { destruct s as [|c' s]; [reflexivity|]. simpl in *.
      destruct (Regex.inClass k c'); [|reflexivity].
      rewrite Hrest in Ep.
      destruct (Regex.plus k rest s _); discriminate. }
    now rewrite E.
Qed.

Lemma spanClass_split (k : Regex.cclass) (s : string) :
  exists post,
    s = spanClass k s ++ post /\ allIn k (spanClass k s) = true
    /\ stopsClass k post.
Proof.
  induction s as [|c s (post & E & Ha & Hs)]; simpl.
  - exists "". repeat split.
  - destruct (Regex.inClass k c) eqn:Ec.
    + exists post. simpl. rewrite Ec, Ha, <- E. auto.
    + exists (String c s). simpl. auto.
Qed.

Lemma matchHere_sound (re : Regex.regex) :
  forall s caps,
    Regex.matchHere re s = Some caps ->
    exists m post, s = m ++ post /\ denotes re m caps.
Proof.
  induction re as [|[text|k] re IH]; intros s caps H; simpl in H.
  - injection H as <-. exists "", s. simpl. auto.
  - destruct (Regex.stripPrefix text s) as [s'|] eqn:E; [|discriminate].
    apply stripPrefix_sound in E. subst s.
    destruct (IH _ _ H) as (m & post & -> & Hd).
    exists (text ++ m), post. rewrite append_assoc. split; [reflexivity|].
    simpl. eauto.
  - apply plus_sound in H.
    destruct H as (v & s' & caps' & Hv & Ha & -> & Hr & ->).
    destruct (IH _ _ Hr) as (m & post & -> & Hd).
    exists (v ++ m), post. rewrite append_assoc. split; [reflexivity|].
    simpl. exists v, m, caps'. auto.
Qed.

Lemma matchHere_complete (re : Regex.regex) :
  forall m caps post,
    denotes re m caps -> Regex.matchHere re (m ++ post) <> None.
Proof.
  induction re as [|[text|k] re IH]; intros m caps post H; simpl in *.
  - discriminate.
  - destruct H as (m' & -> & Hd).
    rewrite append_assoc, stripPrefix_complete. eapply IH; eauto.
  - destruct H as (v & m' & caps' & Hv & Ha & -> & _ & Hd).
    rewrite append_assoc. apply plus_complete; auto. eapply IH; eauto.
Qed.

Lemma search_sound (re : Regex.regex) (s : string) :
  forall caps,
    Regex.search re s = Some caps ->
    exists pre m post, s = pre ++ m ++ post /\ denotes re m caps.
Proof.
  induction s as [|c s IH]; intros caps H; simpl in H.
  - destruct (Regex.matchHere re "") as [caps1|] eqn:E; [|discriminate].
    injection H as <-. apply matchHere_sound in E.
    destruct E as (m & post & E & Hd). exists "", m, post. auto.
  - destruct (Regex.matchHere re (String c s)) as [caps1|] eqn:E.
    + injection H as <-. apply matchHere_sound in E.
      destruct E as (m & post & E & Hd). exists "", m, post. auto.
    + destruct (IH _ H) as (pre & m & post & -> & Hd).
      exists (String c pre), m, post. auto.
Qed.


(** Where the leftmost match starts. *)
Lemma search_at (re : Regex.regex) (s : string) :
  forall caps,
    Regex.search re s = Some caps ->
    exists pre s', s = pre ++ s' /\ Regex.matchHere re s' = Some caps.
Proof.
  induction s as [|c s IH]; intros caps H; simpl in H.
  - destruct (Regex.matchHere re "") as [caps1|] eqn:E; [|discriminate].
    injection H as <-. exists "", "". auto.
  - destruct (Regex.matchHere re (String c s)) as [caps1|] eqn:E.
    + injection H as <-. exists "", (String c s). auto.
    + destruct (IH _ H) as (pre & s' & -> & Hm).
      exists (String c pre), s'. auto.
Qed.

Lemma group1_some (m : option (list string)) (g : string) :
  Regex.group1 m = Some g -> exists caps, m = Some (g :: caps).
Proof.
  destruct m as [[|g' caps]|]; simpl; try discriminate.
  intros [= ->]. eauto.
Qed.

(** A match of [text(k+)]. *)
Lemma search_text_group (text : string) (k : Regex.cclass) (s g : string) :
  Regex.group1 (Regex.search [Regex.Chars text; Regex.Group k] s) = Some g ->
  g <> "" /\ allIn k g = true
  /\ exists pre post, s = pre ++ text ++ g ++ post /\ stopsClass k post.
Proof.
  intros H. apply group1_some in H. destruct H as [caps H].
  apply search_at in H. destruct H as (pre & s' & -> & H). simpl in H.
  destruct (Regex.stripPrefix text s') as [s2|] eqn:E; [|discriminate].
  apply stripPrefix_sound in E. subst s'.
  apply plus_greedy in H; [|reflexivity].
  destruct H as [Hne [= -> ->]].
  destruct (spanClass_split k s2) as (post & E & Ha & Hs).
  repeat split; auto. exists pre, post. now rewrite <- E.
Qed.

(** A match of [text(k+)after]. *)
Lemma search_text_group_text (text after : string) (k : Regex.cclass)
    (s g : string) :
  Regex.group1
    (Regex.search [Regex.Chars text; Regex.Group k; Regex.Chars after] s)
  = Some g ->
  g <> "" /\ allIn k g = true
  /\ exists pre post, s = pre ++ text ++ g ++ after ++ post.
Proof.
  intros H. apply group1_some in H. destruct H as [caps H].
  apply search_sound in H. destruct H as (pre & m & post & -> & H).
  simpl in H.
  destruct H as (m1 & -> & v & m2 & caps' & Hv & Ha & -> & [= <- <-]
                   & m3 & -> & -> & _).
  repeat split; auto. exists pre, post.
  now rewrite !append_assoc.
Qed.



(** ** The claims about the summary *)




Lemma orElse_none (m : option (list string)) (fallback : string) :
  Regex.group1 m = None -> orElse m fallback = fallback.
Proof. unfold orElse. now intros ->. Qed.

Lemma group1_none_or (m : option (list string)) :
  Regex.group1 m = None \/ exists g, Regex.group1 m = Some g.
Proof. destruct (Regex.group1 m); eauto. Qed.

(** ** The command handler *)



(** What a run returns is never the empty string. *)
Lemma detect_truthy (fs : FS) (paths : list string) (st : State) :
  detectProjectFiles fs paths = Returned st ->
  (forall p, cargoToml (result st) = Some p -> truthy (Some p) = true)
  /\ (forall p, pythonProject (result st) = Some p -> truthy (Some p) = true).
Proof.
  intros H. destruct (detect_firstWins fs paths st H) as [[Hc Hp] _].
  rewrite Hc, Hp. split; intros p E.
  - exact (firstSome_truthy _ _ _ (cargoAt_truthy fs) E).
  - exact (firstSome_truthy _ _ _ (pythonAt_truthy fs) E).
Qed.

Lemma copyProject_returned (h : Host) (selectedPaths : list string) (st : State) :
  selectedPaths <> [] ->
  existsSync (fs h) (binPath h) = true ->
  detectProjectFiles (fs h) selectedPaths = Returned st ->
  let command :=
    quoted (binPath h) ++ " " ++ commandArgs selectedPaths (result st) in
  copyProject h selectedPaths
  = Some (ProgressReport 0 "Starting..." :: Exec command ::
          match error (exec h command) with
          | Some message =>
              [ShowErrorMessage ("Error copying files: " ++ message)]
          | None =>
              [ProgressReport 100 "Complete!";
               ShowInformationMessage (notification (stdout (exec h command)))]
          end).
Proof.
  intros Hne Hb Hd. unfold copyProject.
  destruct selectedPaths as [|p l]; [contradiction|].
  simpl List.length. simpl Nat.eqb. cbv iota. rewrite Hb, Hd. reflexivity.
Qed.

(** C9.  When the output of the core has no text of the form of a
    pattern, the corresponding part of the notification is the
    placeholder ([multiple], [unknown], [unknown]); and whatever the
    output is, a run whose core exits without error ends with the
    notification, not with an error. *)
Theorem summary_fallbacks (output : string) :
  ((forall pre n post,
       n <> "" -> allIn Regex.Digit n = true ->
       output <> pre ++ "Files processed: " ++ n ++ post) ->
   filesCount output = "multiple")
  /\ ((forall pre n post,
         n <> "" -> allIn Regex.Digit n = true ->
         output <> pre ++ "Total size: " ++ n ++ " characters" ++ post) ->
      charCount output = "unknown")
  /\ ((forall pre w post,
         w <> "" -> allIn Regex.Word w = true ->
         output <> pre ++ "Project type: " ++ w ++ post) ->
      projectType output = "unknown")
  /\ (filesCount output = "multiple" -> charCount output = "unknown" ->
      projectType output = "unknown" ->
      notification output
      = "Files copied to clipboard! (multiple files, unknown characters, unknown project)")
  /\ (forall h selectedPaths st,
        selectedPaths <> [] ->
        existsSync (fs h) (binPath h) = true ->
        detectProjectFiles (fs h) selectedPaths = Returned st ->
        let command :=
          quoted (binPath h) ++ " " ++ commandArgs selectedPaths (result st) in
        error (exec h command) = None ->
        stdout (exec h command) = output ->
        copyProject h selectedPaths
        = Some [ProgressReport 0 "Starting..."; Exec command;
                ProgressReport 100 "Complete!";
                ShowInformationMessage (notification output)]).
Proof.
  repeat split.
  - intros H. apply orElse_none.
    destruct (group1_none_or (filesMatch output)) as [E|[n E]]; [exact E|].
    apply search_text_group in E.
    destruct E as (Hn & Ha & pre & post & E & _).
    destruct (H pre n post Hn Ha E).
  - intros H. apply orElse_none.
    destruct (group1_none_or (sizeMatch output)) as [E|[n E]]; [exact E|].
    apply search_text_group_text in E.
    destruct E as (Hn & Ha & pre & post & E).
    destruct (H pre n post Hn Ha E).
  - intros H. apply orElse_none.
    destruct (group1_none_or (typeMatch output)) as [E|[n E]]; [exact E|].
    apply search_text_group in E.
    destruct E as (Hn & Ha & pre & post & E & _).
    destruct (H pre n post Hn Ha E).
  - intros E1 E2 E3. unfold notification. now rewrite E1, E2, E3.
  - intros h selectedPaths st Hne Hb Hd command He Hs.
    rewrite (copyProject_returned h selectedPaths st Hne Hb Hd).
    fold command. now rewrite He, Hs.
Qed.


Lemma for_paths_app (fs : FS) (pre rest : list string) :
  forall st st1,
    for_paths fs pre st = Returned st1 -> foundBoth st1 = false ->
    for_paths fs (pre ++ rest) st = for_paths fs rest st1.
Proof.
  induction pre as [|p pre IH]; intros st st1 H Hb; simpl in *.
  - now injection H as <-.
  - destruct (processPath fs p st) as [st2| |]; try discriminate.
    destruct (foundBoth st2) eqn:B.
    + injection H as <-. congruence.
    + now apply IH.
Qed.

(** C5, as the code has it.  When the detection comes to an input path
    that does not exist (no earlier input having yielded both kinds),
    [fs.statSync] throws: the detection returns nothing, the command
    shows the error and ends, and neither the remaining input paths nor
    the core are run. *)
Theorem missing_input_aborts (h : Host) (pre : list string) (p : string)
    (post : list string) (message : string) (st : State) :
  existsSync (fs h) (binPath h) = true ->
  detectProjectFiles (fs h) pre = Returned st ->
  foundBoth st = false ->
  statSync (fs h) p = inr message ->
  detectProjectFiles (fs h) (pre ++ p :: post)
  = Threw message (emit (StatSync p) st)
  /\ copyProject h (pre ++ p :: post)
     = Some [ShowErrorMessage ("Error: " ++ message)].
Proof.
  intros Hb Hd Hf Hs.
  assert (E : detectProjectFiles (fs h) (pre ++ p :: post)
              = Threw message (emit (StatSync p) st)).
  { unfold detectProjectFiles in *.
    rewrite (for_paths_app (fs h) pre (p :: post) initial st Hd Hf).
    simpl. now rewrite (processPath_threw (fs h) p message st Hs). }
  split; [exact E|].
  unfold copyProject. rewrite Hb, E.
  destruct pre; reflexivity.
Qed.

(** ** Determinism *)

Lemma visit_agree (fs1 fs2 : FS) (d : string) (st : State) :
  (forall p, In (ExistsSync p) (trace (visit fs1 d st)) ->
             existsSync fs2 p = existsSync fs1 p) ->
  visit fs2 d st = visit fs1 d st.
Proof.
  intros H. rewrite visit_trace in H. unfold pythonCandidates in H.
  assert (Hc : existsSync fs2 (Path.join [d; "Cargo.toml"])
               = existsSync fs1 (Path.join [d; "Cargo.toml"]))
    by (apply H; in_trace).
  assert (Hp : existsSync fs2 (Path.join [d; "pyproject.toml"])
               = existsSync fs1 (Path.join [d; "pyproject.toml"])).
  { apply H. destruct (truthy (pythonProject (result st))); in_trace. }
  unfold visit, probe. rewrite Hc, Hp. simpl.
  destruct (truthy (pythonProject (result st))) eqn:T; simpl in H.
  - rewrite (H (Path.join [d; "setup.py"])) by in_trace.
    rewrite (H (Path.join [d; "requirements.txt"])) by in_trace.
    reflexivity.
  - destruct (existsSync fs1 (Path.join [d; "Cargo.toml"]));
      destruct (truthy (cargoToml (result st))); simpl; rewrite ?T; simpl;
      destruct (existsSync fs1 (Path.join [d; "pyproject.toml"])); simpl;
      try reflexivity;
      simpl in H;
      rewrite (H (Path.join [d; "setup.py"])) by in_trace;
      destruct (existsSync fs1 (Path.join [d; "setup.py"])); simpl;
      try reflexivity;
      simpl in H;
      rewrite (H (Path.join [d; "requirements.txt"])) by in_trace;
      reflexivity.
Qed.

Lemma agreeOn_prefix (fs1 fs2 : FS) (a b : list event) :
  agreeOn fs1 fs2 (a ++ b) -> agreeOn fs1 fs2 a.
Proof.
  intros [H1 H2]. split; intros p Hp; [apply H1 | apply H2];
    apply in_or_app; now left.
Qed.

Lemma while_loop_agree (fs1 fs2 : FS) (fuel : nat) :
  forall d st st',
    while_loop fuel fs1 d st = Some st' ->
    agreeOn fs1 fs2 (trace st') ->
    while_loop fuel fs2 d st = Some st'.
Proof.
  induction fuel as [|fuel IH]; intros d st st' H Ha; [discriminate|].
  rewrite while_loop_unfold in *.
  destruct (d =? ""); [exact H|].
  assert (Ev : visit fs2 d st = visit fs1 d st).
  { apply visit_agree. intros p Hp. apply Ha.
    destruct (foundBoth (visit fs1 d st)); [now injection H as <-|].
    destruct (Path.dirname d =? d); [now injection H as <-|].
    destruct (while_loop_trace fs1 _ _ _ _ H) as [more ->].
    apply in_or_app. now left. }
  rewrite Ev.
  destruct (foundBoth (visit fs1 d st)); [exact H|].
  destruct (Path.dirname d =? d); [exact H|].
  now apply IH.
Qed.

Lemma processPath_trace (fs : FS) (p : string) (st st' : State) :
  stateOf (processPath fs p st) = Some st' ->
  exists more, trace st' = (trace st ++ StatSync p :: more)%list.
Proof.
  intros H.
  destruct (processPath_cases fs p st)
    as [(m & _ & E)|(stats & st1 & _ & E & Hl)]; rewrite E in H;
    injection H as <-.
  - exists []. reflexivity.
  - destruct (while_loop_trace fs _ _ _ _ Hl) as [more ->].
    exists more. unfold emit; simpl. now rewrite <- app_assoc.
Qed.

Lemma for_paths_trace (fs : FS) (paths : list string) :
  forall st st',
    stateOf (for_paths fs paths st) = Some st' ->
    exists more, trace st' = (trace st ++ more)%list.
Proof.
  induction paths as [|p paths IH]; intros st st' H; simpl in H.
  - injection H as <-. exists []. now rewrite app_nil_r.
  - destruct (processPath fs p st) as [st1|m st1|] eqn:E.
    + destruct (processPath_trace fs p st st1) as [more1 E1];
        [now rewrite E|].
      destruct (foundBoth st1).
      * injection H as <-. eauto.
      * destruct (IH _ _ H) as [more ->]. rewrite E1, <- app_assoc. eauto.
    + injection H as <-.
      destruct (processPath_trace fs p st st1) as [more1 E1];
        [now rewrite E|]. eauto.
    + discriminate.
Qed.

Lemma processPath_agree (fs1 fs2 : FS) (p : string) (st st' : State) :
  stateOf (processPath fs1 p st) = Some st' ->
  agreeOn fs1 fs2 (trace st') ->
  processPath fs2 p st = processPath fs1 p st.
Proof.
  intros H Ha.
  assert (Es : statSync fs2 p = statSync fs1 p).
  { destruct (processPath_trace fs1 p st st' H) as [more E].
    apply Ha. rewrite E. in_trace. }
  destruct (processPath_cases fs1 p st)
    as [(m & Hs & E)|(stats & st1 & Hs & E & Hl)]; rewrite E in H |- *;
    injection H as <-.
  - apply processPath_threw. congruence.
  - unfold processPath. rewrite Es, Hs.
    now rewrite (while_loop_agree fs1 fs2 _ _ _ _ Hl Ha).
Qed.

Lemma for_paths_agree (fs1 fs2 : FS) (paths : list string) :
  forall st st',
    stateOf (for_paths fs1 paths st) = Some st' ->
    agreeOn fs1 fs2 (trace st') ->
    for_paths fs2 paths st = for_paths fs1 paths st.
Proof.
  induction paths as [|p paths IH]; intros st st' H Ha; [reflexivity|].
  simpl in *.
  destruct (processPath fs1 p st) as [st1|m st1|] eqn:E.
  - assert (E2 : processPath fs2 p st = processPath fs1 p st).
    { apply (processPath_agree fs1 fs2 p st st1); [now rewrite E|].
      destruct (foundBoth st1); [now injection H as <-|].
      destruct (for_paths_trace fs1 paths st1 st' H) as [more Em].
      rewrite Em in Ha. now apply agreeOn_prefix in Ha. }
    rewrite E2, E.
    destruct (foundBoth st1); [reflexivity | now apply (IH st1 st')].
  - injection H as <-.
    rewrite (processPath_agree fs1 fs2 p st st1); [now rewrite E | | exact Ha].
    now rewrite E.
  - discriminate.
Qed.

(** C10.  A run is a function of the answers it gets: two snapshots
    that answer alike the calls of the first run give the same run of
    [detectProjectFiles] on the same list of paths, hence the same Rust
    manifest path and the same Python project file path; in particular
    so do two snapshots that answer alike everywhere. *)
Theorem detection_deterministic (fs1 fs2 : FS) (paths : list string) :
  ((forall st, stateOf (detectProjectFiles fs1 paths) = Some st ->
               agreeOn fs1 fs2 (trace st)) ->
   detectProjectFiles fs2 paths = detectProjectFiles fs1 paths)
  /\ ((forall p, existsSync fs2 p = existsSync fs1 p) ->
      (forall p, statSync fs2 p = statSync fs1 p) ->
      detectProjectFiles fs2 paths = detectProjectFiles fs1 paths
      /\ forall st1 st2,
           detectProjectFiles fs1 paths = Returned st1 ->
           detectProjectFiles fs2 paths = Returned st2 ->
           cargoToml (result st1) = cargoToml (result st2)
           /\ pythonProject (result st1) = pythonProject (result st2)).
Proof.
  assert (Hmain : (forall st, stateOf (detectProjectFiles fs1 paths) = Some st ->
                              agreeOn fs1 fs2 (trace st)) ->
                  detectProjectFiles fs2 paths = detectProjectFiles fs1 paths).
  { intros H. unfold detectProjectFiles in *.
    destruct (stateOf (for_paths fs1 paths initial)) as [st|] eqn:E.
    - exact (for_paths_agree fs1 fs2 paths initial st E (H st eq_refl)).
    - destruct (for_paths fs1 paths initial) eqn:F; try discriminate.
      now apply for_paths_not_diverged in F. }
  split; [exact Hmain|].
  intros He Hs.
  assert (E : detectProjectFiles fs2 paths = detectProjectFiles fs1 paths).
  { apply Hmain. intros st _. split; auto. }
  split; [exact E|].
  intros st1 st2 H1 H2. rewrite E, H1 in H2. now injection H2 as <-.
Qed.

(** ** The claims at sample inputs *)

(** Two sibling directories with a [requirements.txt] each: the one next
    to the first input path is returned, and the second input path,
    searched because no Rust manifest was found, does not change it. *)
Example siblings_nearest_first :
  exists st,
    detectProjectFiles siblingsFS ["/p/a/x.py"; "/p/b/y.py"] = Returned st
    /\ result st = {| cargoToml := None;
                      pythonProject := Some "/p/a/requirements.txt" |}
    /\ entered (trace st) = ["/p/a"; "/p"; "/"; "/p/b"; "/p"; "/"].
Proof. eexists. repeat split. Qed.

Example relative_file_walk :
  exists st,
    processPath (mkFS ["main.rs"; "setup.py"] ["."]) "main.rs" initial
    = Returned st
    /\ entered (trace st) = ["."]
    /\ pythonProject (result st) = Some "setup.py".
Proof. eexists. repeat split. Qed.

Example summary_read_back :
  notification sampleStdout
  = "Files copied to clipboard! (12 files, 3456 characters, rust project)".
Proof. reflexivity. Qed.

Example summary_backtracks :
  charCount "Total size: 12 chars; Total size: 77 characters" = "77".
Proof. reflexivity. Qed.

Lemma python_priority_order_witness :
  pythonProject (result (visit nestedFS "/w/app" initial))
  = Some "/w/app/setup.py"
  /\ exists st,
       detectProjectFiles nestedFS ["/w/app/lib.rs"] = Returned st
       /\ pythonProject (result st) = Some "/w/app/setup.py".
Proof.
  destruct (python_priority_order nestedFS) as (_ & Hv & Hr). split.
  - destruct (Hv "/w/app" initial) as [_ E]. rewrite E. reflexivity.
  - eexists. split; [reflexivity|].
    rewrite (Hr ["/w/app/lib.rs"] _ eq_refl). reflexivity.
Defined.

(** C1, as the claim has it, fails: from [/w/app/x.py] the run records
    [/w/app/requirements.txt] and goes on to [/w], no Rust manifest
    being found; [pyproject.toml] is the first candidate that exists in
    [/w], and it is not what is recorded. *)
Lemma later_directory_not_recorded :
  ~ recordsFirstExistingEverywhere layeredFS ["/w/app/x.py"].
Proof.
  intros H.
  assert (E := H _ "/w" "/w/pyproject.toml" eq_refl).
  assert (Hin : In "/w" ["/w/app"; "/w"; "/"]) by (simpl; auto).
  specialize (E Hin eq_refl). discriminate E.
Qed.

Lemma first_match_wins_witness :
  (exists st,
      detectProjectFiles workspaceFS ["/w/app/src/main.rs"; "/w"] = Returned st
      /\ cargoToml (result st) = Some "/w/app/Cargo.toml"
      /\ pythonProject (result st) = Some "/w/requirements.txt")
  /\ (exists st',
        stateOf (for_paths workspaceFS ["/w/app/src/main.rs"; "/w"]
                   (setPythonProject "/p/setup.py"
                      (setCargoToml "/c/Cargo.toml" initial))) = Some st'
        /\ cargoToml (result st') = Some "/c/Cargo.toml"
        /\ pythonProject (result st') = Some "/p/setup.py")
  /\ nth_error (ancestry "/w/app") 0 = Some "/w/app".
Proof.
  destruct (first_match_wins workspaceFS ["/w/app/src/main.rs"; "/w"])
    as (Hk & Hr & Ha).
  split; [|split].
  - eexists. split; [reflexivity|].
    destruct (Hr _ eq_refl) as [Ec Ep]. rewrite Ec, Ep. split; reflexivity.
  - eexists. split; [reflexivity|].
    destruct (Hk (setPythonProject "/p/setup.py"
                    (setCargoToml "/c/Cargo.toml" initial)) _ eq_refl)
      as [Kc Kp].
    rewrite (Kc eq_refl), (Kp eq_refl). split; reflexivity.
  - refine (proj1 (proj2 (Ha "/w/app" _))). discriminate.
Defined.

Lemma walk_starts_and_climbs_witness :
  exists st' more,
    processPath workspaceFS "/w/app/src/main.rs" initial = Returned st'
    /\ trace st' = StatSync "/w/app/src/main.rs" :: more
    /\ nth_error (entered more) 0 = Some "/w/app/src"
    /\ nth_error (entered more) 2 = Some "/w".
Proof.
  destruct (walk_starts_and_climbs workspaceFS "/w/app/src/main.rs"
              {| isFile := true |} initial eq_refl)
    as (st' & more & H1 & H2 & H3 & H4 & _).
  - discriminate.
  - exists st', more. split; [exact H1|]. split; [exact H2|].
    split; [exact H3|].
    vm_compute in H1. injection H1 as <-.
    vm_compute in H2. injection H2 as <-. reflexivity.
Defined.

(** C4, as the claim has it, fails: from [/w/app/src/main.rs] the Rust
    manifest is found in [/w/app], and [/w], entered next because no
    Python project file is found yet, is probed for [Cargo.toml] again. *)
Lemma probe_after_match : ~ noProbeAfterMatch workspaceFS ["/w/app/src/main.rs"].
Proof.
  intros H.
  refine (H _ traceBelowApp "/w/app" traceAboveApp eq_refl eq_refl _ "/w" _ _).
  - discriminate.
  - simpl. auto.
  - right. right. right. right. right. left. reflexivity.
Qed.

Lemma stops_when_both_found_witness :
  (exists st,
      detectProjectFiles nestedFS ["/w/app/lib.rs"; "/w"] = Returned st
      /\ entered (trace st) = ["/w/app"])
  /\ In (ExistsSync "/w/Cargo.toml")
       (trace (visit workspaceFS "/w" (setCargoToml "/w/app/Cargo.toml" initial)))
  /\ cargoToml (result (visit workspaceFS "/w"
                          (setCargoToml "/w/app/Cargo.toml" initial)))
     = Some "/w/app/Cargo.toml"
  /\ pythonProject (result (visit nestedFS "/w"
                              (setPythonProject "/w/app/setup.py" initial)))
     = Some "/w/app/setup.py".
Proof.
  destruct (stops_when_both_found workspaceFS) as (_ & Hc & _).
  destruct (stops_when_both_found nestedFS) as (Hs & _ & Hp).
  split; [|split; [|split]].
  - eexists. split; [reflexivity|].
    destruct (Hs ["/w/app/lib.rs"; "/w"] _ eq_refl) as [E _].
    rewrite E. reflexivity.
  - exact (proj1 (Hc "/w" (setCargoToml "/w/app/Cargo.toml" initial) eq_refl)).
  - exact (proj2 (Hc "/w" (setCargoToml "/w/app/Cargo.toml" initial) eq_refl)).
  - exact (proj2 (Hp "/w" (setPythonProject "/w/app/setup.py" initial) eq_refl)).
Defined.

(** C5, as the claim has it, fails: with one missing and one existing
    input path the command ends with the error and the core is not
    run. *)
Lemma missing_input_not_skipped :
  ~ missingInputIsSkipped (sampleHost workspaceFS sampleStdout)
      ["/nope"; "/w/app/src/main.rs"].
Proof.
  intros H. destruct H as (actions & command & E & Hin).
  - exists "/w/app/src/main.rs", {| isFile := true |}.
    split; [simpl; auto | reflexivity].
  - vm_compute in E. injection E as <-.
    destruct Hin as [Hin|[]]. discriminate.
Qed.

Lemma missing_input_aborts_witness :
  copyProject (sampleHost workspaceFS sampleStdout)
    ["/ext/bin"; "/nope"; "/w/app/src/main.rs"]
  = Some [ShowErrorMessage
            "Error: ENOENT: no such file or directory, stat '/nope'"].
Proof.
  refine (proj2 (missing_input_aborts (sampleHost workspaceFS sampleStdout)
                   ["/ext/bin"] "/nope" ["/w/app/src/main.rs"] _ _
                   eq_refl eq_refl eq_refl eq_refl)).
Defined.



Lemma walk_terminates_witness :
  exists st',
    while_loop 100 workspaceFS "/w/app/src" initial = Some st'
    /\ while_loop (walk_fuel "/w/app/src") workspaceFS "/w/app/src" initial
       = Some st'
    /\ entered (trace st') = ["/w/app/src"; "/w/app"; "/w"].
Proof.
  destruct (walk_terminates workspaceFS) as (Hw & _).
  destruct (Hw "/w/app/src" initial 100) as (st' & H1 & H2 & _).
  - unfold walk_fuel. simpl. lia.
  - exists st'. split; [exact H1|]. split; [exact H2|].
    vm_compute in H1. injection H1 as <-. reflexivity.
Defined.

Lemma summary_fallbacks_witness :
  filesCount "done" = "multiple"
  /\ copyProject (sampleHost workspaceFS "done") ["/w/app"]
     = Some [ProgressReport 0 "Starting...";
             Exec (quoted "/ext/bin/llm-cocop" ++ " " ++ quoted "/w/app"
                   ++ " --cargo-toml " ++ quoted "/w/app/Cargo.toml"
                   ++ " --pyproject " ++ quoted "/w/requirements.txt");
             ProgressReport 100 "Complete!";
             ShowInformationMessage
               "Files copied to clipboard! (multiple files, unknown characters, unknown project)"].
Proof.
  destruct (summary_fallbacks "done") as (Hf & _ & _ & _ & Hrun).
  split.
  - apply Hf. intros pre n post _ _ E.
    apply (f_equal String.length) in E.
    rewrite !length_append in E. simpl in E. lia.
  - rewrite (Hrun (sampleHost workspaceFS "done") ["/w/app"] _
               ltac:(discriminate) eq_refl eq_refl eq_refl eq_refl).
    reflexivity.
Defined.

Lemma detection_deterministic_witness :
  detectProjectFiles widerFS ["/w/app/src/main.rs"]
  = detectProjectFiles workspaceFS ["/w/app/src/main.rs"].
Proof.
  apply (proj1 (detection_deterministic workspaceFS widerFS
                  ["/w/app/src/main.rs"])).
  intros st E. vm_compute in E. injection E as <-.
  split; intros p Hp; simpl in Hp;
    repeat (destruct Hp as [Hp|Hp];
            [try discriminate; try (injection Hp as <-; reflexivity)|]);
    destruct Hp.
Defined.

(* ================================================================== *)
(** * Further properties of the detection *)

Lemma for_paths_threw (fs : FS) (paths : list string) :
  forall st message st',
    for_paths fs paths st = Threw message st' ->
    foundBoth st = false ->
    exists pre p post st0,
      paths = (pre ++ p :: post)%list
      /\ statSync fs p = inr message
      /\ for_paths fs pre st = Returned st0
      /\ foundBoth st0 = false
      /\ st' = emit (StatSync p) st0.
Proof.
  induction paths as [|p paths IH]; intros st message st' H Hb; simpl in H;
    [discriminate|].
  destruct (processPath_cases fs p st)
    as [(m & Hs & E)|(stats & st1 & Hs & E & _)]; rewrite E in H.
  - injection H as <- <-. exists [], p, paths, st. auto.
  - destruct (foundBoth st1) eqn:B; [discriminate|].
    destruct (IH _ _ _ H B) as (pre & q & post & st0 & -> & Hq & Hr & Hb0 & ->).
    exists (p :: pre), q, post, st0. simpl. rewrite E, B. auto.
Qed.

Lemma for_paths_all_exist (fs : FS) (paths : list string) :
  forall st,
    (forall p, In p paths -> exists stats, statSync fs p = inl stats) ->
    exists st', for_paths fs paths st = Returned st'.
Proof.
  induction paths as [|p paths IH]; intros st H; simpl; [eauto|].
  destruct (H p (or_introl eq_refl)) as [stats Hs].
  destruct (processPath_returned fs p stats st Hs) as (st1 & -> & _).
  destruct (foundBoth st1); [eauto|].
  apply IH. intros q Hq. apply H. now right.
Qed.

(** X1.  [detectProjectFiles] throws only the error of [fs.statSync] on
    one of its input paths, after the paths before it were searched
    without finding both kinds; and it returns whenever [fs.statSync]
    accepts every input path. *)
Theorem detect_throws_only_on_missing_input (fs : FS) (paths : list string) :
  (forall message st,
     detectProjectFiles fs paths = Threw message st ->
     exists pre p post st0,
       paths = (pre ++ p :: post)%list
       /\ statSync fs p = inr message
       /\ detectProjectFiles fs pre = Returned st0
       /\ foundBoth st0 = false
       /\ st = emit (StatSync p) st0)
  /\ ((forall p, In p paths -> exists stats, statSync fs p = inl stats) ->
      exists st, detectProjectFiles fs paths = Returned st).
Proof.
  split.
  - intros message st H.
    exact (for_paths_threw fs paths initial message st H eq_refl).
  - apply for_paths_all_exist.
Qed.

Lemma for_paths_app_done (fs : FS) (pre post : list string) :
  forall st0 st,
    for_paths fs pre st0 = Returned st ->
    foundBoth st0 = false -> foundBoth st = true ->
    for_paths fs (pre ++ post) st0 = Returned st.
Proof.
  induction pre as [|p pre IH]; intros st0 st H H0 Hb; simpl in *.
  - injection H as <-. congruence.
  - destruct (processPath fs p st0) as [st1| |]; try discriminate.
    destruct (foundBoth st1) eqn:B; [exact H|].
    now apply IH.
Qed.


(** What a run returns for each kind, along the search order (shared by
    the properties below). *)
Lemma detect_searchOrder (fs : FS) (paths : list string) (st : State) :
  detectProjectFiles fs paths = Returned st ->
  cargoToml (result st) = firstSome (cargoAt fs) (searchOrder fs paths)
  /\ pythonProject (result st) = firstSome (pythonAt fs) (searchOrder fs paths).
Proof.
  intros H. destruct (detect_firstWins fs paths st H) as [[Hc Hp] He].
  rewrite Hc, Hp, He.
  destruct (stopWhenBoth_prefix fs (searchOrder fs paths) [])
    as (rest & E & [->|B]).
  - rewrite app_nil_r in E. rewrite <- E. auto.
  - simpl in B. unfold bothAt in B. apply andb_true_iff in B.
    destruct B as [Bc Bp].
    set (stop := stopWhenBoth fs [] (searchOrder fs paths)) in *.
    rewrite E, !isSome_firstSome_app; auto.
Qed.

Lemma firstSome_In (f : string -> option string) (ds : list string) (p : string) :
  firstSome f ds = Some p -> exists d, In d ds /\ f d = Some p.
Proof.
  induction ds as [|x ds IH]; simpl; [discriminate|].
  destruct (f x) eqn:E.
  - intros [= <-]. exists x. auto.
  - intros H. destruct (IH H) as (d & Hd & Hf). exists d. auto.
Qed.

Lemma ancestry_In (s d : string) :
  In d (ancestry s) -> exists k, d = Nat.iter k Path.dirname s.
Proof.
  unfold ancestry. destruct (s =? ""); [intros []|].
  intros H. apply In_nth_error in H. destruct H as [k H].
  exists k. exact (ancestors_nth _ _ _ _ H).
Qed.

Lemma searchOrder_In (fs : FS) (paths : list string) (d : string) :
  In d (searchOrder fs paths) ->
  exists filePath stats k,
    In filePath paths /\ statSync fs filePath = inl stats
    /\ d = Nat.iter k Path.dirname (startDir stats filePath).
Proof.
  unfold searchOrder. rewrite in_flat_map.
  intros (filePath & Hin & Hd).
  destruct (statSync fs filePath) as [stats|] eqn:E; [|destruct Hd].
  apply ancestry_In in Hd. destruct Hd as [k ->].
  exists filePath, stats, k. auto.
Qed.

Lemma cargoAt_some (fs : FS) (d p : string) :
  cargoAt fs d = Some p ->
  p = Path.join [d; "Cargo.toml"] /\ existsSync fs p = true.
Proof.
  unfold cargoAt. destruct (existsSync fs _) eqn:E; [|discriminate].
  intros [= <-]. auto.
Qed.

Lemma pythonAt_some (fs : FS) (d p : string) :
  pythonAt fs d = Some p ->
  (exists name, In name pythonNames /\ p = Path.join [d; name])
  /\ existsSync fs p = true.
Proof.
  unfold pythonAt. intros H. apply find_some in H. destruct H as [Hin He].
  split; [|exact He].
  unfold pythonCandidates, pythonNames in *. simpl in *.
  destruct Hin as [<-|[<-|[<-|[]]]]; eauto 6.
Qed.

(** X3.  What the detection returns exists and lies above an input: a
    returned Rust manifest is [Cargo.toml] in the starting directory of
    one of the input paths or in one of its ancestors, a returned Python
    project file is one of the three file names there, and
    [fs.existsSync] holds of the returned path. *)
Theorem returned_manifests_lie_above_inputs (fs : FS) (paths : list string)
    (st : State) :
  detectProjectFiles fs paths = Returned st ->
  (forall p,
     cargoToml (result st) = Some p ->
     existsSync fs p = true
     /\ exists filePath stats k,
          In filePath paths /\ statSync fs filePath = inl stats
          /\ p = Path.join [Nat.iter k Path.dirname (startDir stats filePath);
                            "Cargo.toml"])
  /\ (forall p,
        pythonProject (result st) = Some p ->
        existsSync fs p = true
        /\ exists filePath stats k name,
             In filePath paths /\ statSync fs filePath = inl stats
             /\ In name pythonNames
             /\ p = Path.join [Nat.iter k Path.dirname (startDir stats filePath);
                               name]).
Proof.
  intros H. destruct (detect_searchOrder fs paths st H) as [Hc Hp].
  split; intros p E.
  - rewrite Hc in E. apply firstSome_In in E. destruct E as (d & Hd & E).
    apply cargoAt_some in E. destruct E as [-> He]. split; [exact He|].
    apply searchOrder_In in Hd.
    destruct Hd as (filePath & stats & k & H1 & H2 & ->). eauto 6.
  - rewrite Hp in E. apply firstSome_In in E. destruct E as (d & Hd & E).
    apply pythonAt_some in E. destruct E as [(name & Hn & ->) He].
    split; [exact He|].
    apply searchOrder_In in Hd.
    destruct Hd as (filePath & stats & k & H1 & H2 & ->).
    exists filePath, stats, k, name. auto.
Qed.

Lemma searchOrder_app (fs : FS) (a b : list string) :
  searchOrder fs (a ++ b) = (searchOrder fs a ++ searchOrder fs b)%list.
Proof. apply flat_map_app. Qed.

(** X4.  Selecting more paths never replaces what the paths selected
    first have yielded.  When the detection returns on [pre], then on
    [pre ++ post] it either throws, on a path of [post] that
    [fs.statSync] rejects, with every manifest that [pre] yielded still
    recorded at that point, or returns, for each kind, what it returns
    on [pre] and, for a kind that [pre] does not yield, the first
    manifest along the search order of [post]; and it does return when
    [fs.statSync] accepts every path of [post]. *)
Theorem more_inputs_only_fill_gaps (fs : FS) (pre post : list string)
    (st1 : State) :
  detectProjectFiles fs pre = Returned st1 ->
  (forall st2,
     detectProjectFiles fs (pre ++ post) = Returned st2 ->
     cargoToml (result st2)
     = match cargoToml (result st1) with
       | Some p => Some p
       | None => firstSome (cargoAt fs) (searchOrder fs post)
       end
     /\ pythonProject (result st2)
        = match pythonProject (result st1) with
          | Some p => Some p
          | None => firstSome (pythonAt fs) (searchOrder fs post)
          end)
  /\ (forall message st2,
        detectProjectFiles fs (pre ++ post) = Threw message st2 ->
        (exists p, In p post /\ statSync fs p = inr message)
        /\ (forall p, cargoToml (result st1) = Some p ->
                      cargoToml (result st2) = Some p)
        /\ (forall p, pythonProject (result st1) = Some p ->
                      pythonProject (result st2) = Some p))
  /\ ((forall p, In p post -> exists stats, statSync fs p = inl stats) ->
      exists st2, detectProjectFiles fs (pre ++ post) = Returned st2).
Proof.
  intros H1. split; [|split].
  - intros st2 H2.
    destruct (detect_searchOrder fs pre st1 H1) as [-> ->].
    destruct (detect_searchOrder fs _ st2 H2) as [-> ->].
    now rewrite searchOrder_app, !firstSome_app.
  - intros message st2 H2.
    destruct (foundBoth st1) eqn:B.
    { unfold detectProjectFiles in *.
      rewrite (for_paths_app_done fs pre post initial st1 H1 eq_refl B) in H2.
      discriminate. }
    unfold detectProjectFiles in H1, H2.
    rewrite (for_paths_app fs pre post initial st1 H1 B) in H2.
    split.
    + destruct (for_paths_threw fs post st1 message st2 H2 B)
        as (a & p & b & st0 & -> & Hs & _).
      exists p. split; [apply in_or_app; right; now left | exact Hs].
    + assert (K : kept st1 st2).
      { apply (for_paths_kept fs post). now rewrite H2. }
      destruct K as [Kc Kp].
      destruct (detect_truthy fs pre st1 H1) as [Tc Tp].
      split; intros p E.
      * rewrite Kc, E; [reflexivity|]. rewrite E. now apply Tc.
      * rewrite Kp, E; [reflexivity|]. rewrite E. now apply Tp.
  - intros Hall. unfold detectProjectFiles in *.
    destruct (foundBoth st1) eqn:B.
    + exists st1.
      exact (for_paths_app_done fs pre post initial st1 H1 eq_refl B).
    + rewrite (for_paths_app fs pre post initial st1 H1 B).
      now apply for_paths_all_exist.
Qed.

(** X5.  A file and the directory that contains it are interchangeable
    as input: the detection returns the same manifests for either. *)
Theorem file_or_its_directory (fs : FS) (filePath : string)
    (fileStats dirStats : Stats) :
  statSync fs filePath = inl fileStats -> isFile fileStats = true ->
  statSync fs (Path.dirname filePath) = inl dirStats ->
  isFile dirStats = false ->
  exists st1 st2,
    detectProjectFiles fs [filePath] = Returned st1
    /\ detectProjectFiles fs [Path.dirname filePath] = Returned st2
    /\ result st1 = result st2.
Proof.
  intros Hf If Hd Id.
  destruct (for_paths_all_exist fs [filePath] initial) as [st1 E1].
  { intros p [<-|[]]. eauto. }
  destruct (for_paths_all_exist fs [Path.dirname filePath] initial) as [st2 E2].
  { intros p [<-|[]]. eauto. }
  exists st1, st2. split; [exact E1|]. split; [exact E2|].
  destruct (detect_searchOrder fs _ st1 E1) as [C1 P1].
  destruct (detect_searchOrder fs _ st2 E2) as [C2 P2].
  assert (Es : searchOrder fs [filePath] = searchOrder fs [Path.dirname filePath]).
  { unfold searchOrder. simpl. rewrite Hf, Hd. unfold startDir.
    now rewrite If, Id. }
  rewrite Es in C1, P1. rewrite <- C2 in C1. rewrite <- P2 in P1.
  destruct (result st1), (result st2). simpl in *. congruence.
Qed.

Lemma firstSome_ext (f g : string -> option string) (ds : list string) :
  (forall d, f d = g d) -> firstSome f ds = firstSome g ds.
Proof.
  intros H. induction ds as [|d ds IH]; simpl; [reflexivity|].
  now rewrite H, IH.
Qed.

Lemma searchOrder_ext (fs1 fs2 : FS) (paths : list string) :
  (forall p, statSync fs2 p = statSync fs1 p) ->
  searchOrder fs2 paths = searchOrder fs1 paths.
Proof.
  intros H. unfold searchOrder.
  induction paths as [|p paths IH]; simpl; [reflexivity|].
  now rewrite H, IH.
Qed.

(** X6.  The two kinds do not interfere in what is returned: on two
    snapshots with the same [Cargo.toml] files (and the same answers of
    [fs.statSync]), runs that return give the same Rust manifest,
    whatever Python project files either snapshot holds; and likewise
    for the Python project file when the three Python file names are
    present alike. *)
Theorem kinds_do_not_interfere (fs1 fs2 : FS) (paths : list string)
    (st1 st2 : State) :
  (forall p, statSync fs2 p = statSync fs1 p) ->
  detectProjectFiles fs1 paths = Returned st1 ->
  detectProjectFiles fs2 paths = Returned st2 ->
  ((forall d, existsSync fs2 (Path.join [d; "Cargo.toml"])
              = existsSync fs1 (Path.join [d; "Cargo.toml"])) ->
   cargoToml (result st2) = cargoToml (result st1))
  /\ ((forall d name, In name pythonNames ->
                      existsSync fs2 (Path.join [d; name])
                      = existsSync fs1 (Path.join [d; name])) ->
      pythonProject (result st2) = pythonProject (result st1)).
Proof.
  intros Hs H1 H2.
  destruct (detect_searchOrder fs1 paths st1 H1) as [-> ->].
  destruct (detect_searchOrder fs2 paths st2 H2) as [-> ->].
  rewrite (searchOrder_ext fs1 fs2 paths Hs).
  split; intros He; apply firstSome_ext; intros d.
  - unfold cargoAt. now rewrite He.
  - unfold pythonAt, pythonCandidates. simpl.
    rewrite !He by (unfold pythonNames; simpl; auto). reflexivity.
Qed.

Lemma statted_app (a b : list event) :
  statted (a ++ b) = (statted a ++ statted b)%list.
Proof. apply flat_map_app. Qed.

Lemma probed_app (a b : list event) :
  probed (a ++ b) = (probed a ++ probed b)%list.
Proof. apply flat_map_app. Qed.

Lemma statted_checks (d : string) (k : nat) : statted (checks d k) = [].
Proof.
  unfold checks. simpl.
  induction (firstn k (pythonCandidates d)) as [|x l IH]; [reflexivity | exact IH].
Qed.

Lemma probed_checks (d : string) (k : nat) :
  k <= 3 -> List.length (probed (checks d k)) = 1 + k.
Proof.
  intros Hk. unfold checks. simpl. f_equal.
  assert (E : forall l, List.length (probed (map ExistsSync l)) = List.length l).
  { induction l as [|x l IH]; simpl; [reflexivity | now rewrite IH]. }
  rewrite E, length_firstn. simpl. lia.
Qed.

(** What a finished walk adds: no call of [fs.statSync], and between two
    and four calls of [fs.existsSync] for each directory entered. *)
Lemma while_loop_calls (fs : FS) (fuel : nat) (d : string) (st st' : State) :
  while_loop fuel fs d st = Some st' ->
  statted (trace st') = statted (trace st)
  /\ exists n m,
       List.length (entered (trace st')) = List.length (entered (trace st)) + n
       /\ List.length (probed (trace st')) = List.length (probed (trace st)) + m
       /\ 2 * n <= m <= 4 * n.
Proof.
  revert fuel d st st'.
  assert (Hone : forall d st,
             statted (trace (visit fs d st)) = statted (trace st)
             /\ exists m,
                  List.length (probed (trace (visit fs d st)))
                  = List.length (probed (trace st)) + m
                  /\ 2 <= m <= 4).
  { intros d st. destruct (visit_checks fs d st) as (k & Hk & ->).
    rewrite statted_app, statted_checks, app_nil_r, probed_app, length_app.
    split; [reflexivity|].
    exists (1 + k). rewrite probed_checks by lia. lia. }
  apply (while_loop_ind fs (fun _ st st' =>
           statted (trace st') = statted (trace st)
           /\ exists n m,
                List.length (entered (trace st'))
                = List.length (entered (trace st)) + n
                /\ List.length (probed (trace st'))
                   = List.length (probed (trace st)) + m
                /\ 2 * n <= m <= 4 * n)).
  - intros st. split; [reflexivity|]. exists 0, 0. lia.
  - intros d st _ _. destruct (Hone d st) as (Hs & m & Hm & Hb).
    split; [exact Hs|]. exists 1, m.
    rewrite visit_entered, length_app. simpl. lia.
  - intros d st _ _ _. destruct (Hone d st) as (Hs & m & Hm & Hb).
    split; [exact Hs|]. exists 1, m.
    rewrite visit_entered, length_app. simpl. lia.
  - intros d st st' _ _ _ (Hs' & n & m' & He & Hp & Hb').
    destruct (Hone d st) as (Hs & m & Hm & Hb).
    split; [congruence|]. exists (1 + n), (m + m').
    rewrite visit_entered, length_app in He. simpl in He. lia.
Qed.

Lemma processPath_calls (fs : FS) (p : string) (st st' : State) :
  stateOf (processPath fs p st) = Some st' ->
  statted (trace st') = (statted (trace st) ++ [p])%list
  /\ exists n m,
       List.length (entered (trace st')) = List.length (entered (trace st)) + n
       /\ List.length (probed (trace st')) = List.length (probed (trace st)) + m
       /\ 2 * n <= m <= 4 * n.
Proof.
  intros H.
  assert (He : statted (trace (emit (StatSync p) st))
               = (statted (trace st) ++ [p])%list
               /\ entered (trace (emit (StatSync p) st)) = entered (trace st)
               /\ probed (trace (emit (StatSync p) st)) = probed (trace st)).
  { unfold emit; simpl. rewrite statted_app, entered_app, probed_app. simpl.
    now rewrite !app_nil_r. }
  destruct He as (E1 & E2 & E3).
  destruct (processPath_cases fs p st)
    as [(m & _ & E)|(stats & st1 & _ & E & Hl)]; rewrite E in H;
    injection H as <-.
  - split; [exact E1|]. exists 0, 0. rewrite E2, E3. lia.
  - destruct (while_loop_calls fs _ _ _ _ Hl) as (Hs & n & m & Hn & Hm & Hb).
    split; [congruence|]. exists n, m. rewrite <- E2, <- E3. auto.
Qed.

Lemma for_paths_calls (fs : FS) (paths : list string) :
  forall st st',
    stateOf (for_paths fs paths st) = Some st' ->
    (exists pre post,
        paths = (pre ++ post)%list
        /\ statted (trace st') = (statted (trace st) ++ pre)%list
        /\ (post = [] \/ foundBoth st' = true
            \/ exists message, for_paths fs paths st = Threw message st'))
    /\ exists n m,
         List.length (entered (trace st')) = List.length (entered (trace st)) + n
         /\ List.length (probed (trace st')) = List.length (probed (trace st)) + m
         /\ 2 * n <= m <= 4 * n.
Proof.
  induction paths as [|p paths IH]; intros st st' H; simpl in H.
  - injection H as <-. split.
    + exists [], []. split; [reflexivity|].
      split; [now rewrite app_nil_r | now left].
    + exists 0, 0. lia.
  - simpl for_paths.
    destruct (processPath fs p st) as [st1|message st1|] eqn:E.
    + destruct (processPath_calls fs p st st1) as (Hs & n & m & Hn & Hm & Hb);
        [now rewrite E|].
      destruct (foundBoth st1) eqn:B.
      * injection H as <-. split; [|eauto].
        exists [p], paths. auto.
      * destruct (IH _ _ H) as ((pre & post & -> & Hs' & Hstop)
                                 & n' & m' & Hn' & Hm' & Hb').
        split.
        -- exists (p :: pre), post. split; [reflexivity|].
           split; [now rewrite Hs', Hs, <- app_assoc|].
           destruct Hstop as [?|[?|[msg ?]]]; eauto.
        -- exists (n + n'), (m + m'). lia.
    + injection H as <-.
      destruct (processPath_calls fs p st st1) as (Hs & n & m & Hn & Hm & Hb);
        [now rewrite E|].
      split; [|eauto].
      exists [p], paths. eauto 6.
    + discriminate.
Qed.


Lemma dirname_length (p : string) :
  String.length (Path.dirname p) <= String.length p + 1.
Proof.
  destruct (dirname_cases p) as [H|[H|[[H L]|H]]];
    try (rewrite H; simpl; lia). lia.
Qed.

Lemma ancestry_length (s : string) :
  List.length (ancestry s) <= String.length s + 2.
Proof.
  unfold ancestry. destruct (s =? ""); [simpl; lia|].
  apply (ancestors_length (walk_fuel s) s).
Qed.

Lemma searchOrder_length (fs : FS) (paths : list string) :
  List.length (searchOrder fs paths)
  <= list_sum (map (fun p => String.length p + 3) paths).
Proof.
  unfold searchOrder.
  induction paths as [|p paths IH]; simpl; [lia|].
  rewrite length_app.
  assert (List.length (match statSync fs p with
                       | inl stats => ancestry (startDir stats p)
                       | inr _ => []
                       end) <= String.length p + 3); [|lia].
  destruct (statSync fs p) as [stats|]; [|simpl; lia].
  pose proof (ancestry_length (startDir stats p)) as Ha.
  unfold startDir in *. destruct (isFile stats); [|lia].
  pose proof (dirname_length p). lia.
Qed.

(** X8.  The cost of a run that returns: each directory entered costs
    between two and four calls of [fs.existsSync], and the number of
    directories entered is at most the sum, over the input paths, of the
    length of the path plus three. *)
Theorem probes_are_bounded (fs : FS) (paths : list string) (st : State) :
  detectProjectFiles fs paths = Returned st ->
  2 * List.length (entered (trace st)) <= List.length (probed (trace st))
  /\ List.length (probed (trace st)) <= 4 * List.length (entered (trace st))
  /\ List.length (entered (trace st))
     <= list_sum (map (fun p => String.length p + 3) paths)
  /\ List.length (statted (trace st)) <= List.length paths.
Proof.
  intros H.
  assert (Hs : stateOf (for_paths fs paths initial) = Some st).
  { unfold detectProjectFiles in H. now rewrite H. }
  destruct (for_paths_calls fs paths initial st Hs)
    as ((pre & post & E & Hp & _) & n & m & Hn & Hm & Hb).
  simpl in Hn, Hm, Hp.
  destruct (detect_firstWins fs paths st H) as [_ He].
  destruct (stopWhenBoth_prefix fs (searchOrder fs paths) []) as (rest & Er & _).
  pose proof (searchOrder_length fs paths) as Hl.
  rewrite Er, length_app, <- He in Hl.
  repeat split; try lia.
  rewrite Hp, E, length_app. lia.
Qed.

(* ================================================================== *)
(** * Further properties of the summary *)

Lemma search_leftmost (re : Regex.regex) (s : string) :
  forall caps,
    Regex.search re s = Some caps ->
    exists pre s',
      s = pre ++ s' /\ Regex.matchHere re s' = Some caps
      /\ forall a b, pre = a ++ b -> b <> "" ->
                     Regex.matchHere re (b ++ s') = None.
Proof.
  assert (Hnil : forall (a b s' : string), "" = a ++ b -> b <> "" ->
                   Regex.matchHere re (b ++ s') = None).
  { intros a b s' Hab Hb. destruct a; [simpl in Hab; congruence | discriminate]. }
  induction s as [|c s IH]; intros caps H; simpl in H.
  - destruct (Regex.matchHere re "") as [caps1|] eqn:E; [|discriminate].
    injection H as <-. exists "", "".
    split; [reflexivity|]. split; [exact E|]. intros a b. apply (Hnil a b).
  - destruct (Regex.matchHere re (String c s)) as [caps1|] eqn:E.
    + injection H as <-. exists "", (String c s).
      split; [reflexivity|]. split; [exact E|]. intros a b. apply (Hnil a b).
    + destruct (IH _ H) as (pre & s' & -> & Hm & Hl).
      exists (String c pre), s'.
      split; [reflexivity|]. split; [exact Hm|].
      intros a b Hab Hb. destruct a as [|x a]; simpl in Hab.
      * subst b. exact E.
      * injection Hab as _ Hab. exact (Hl a b Hab Hb).
Qed.

(** X9.  Each pattern reads the first text of its form: what a
    successful search captures belongs to a match before which no other
    match of the same pattern starts. *)
Theorem first_summary_is_read (re : Regex.regex) (output : string)
    (caps : list string) :
  In re [filesRe; sizeRe; typeRe] ->
  Regex.search re output = Some caps ->
  exists pre m post,
    output = pre ++ m ++ post
    /\ denotes re m caps
    /\ forall a b m' caps' post',
         pre = a ++ b -> b <> "" ->
         b ++ m ++ post = m' ++ post' -> ~ denotes re m' caps'.
Proof.
  intros _ H. apply search_leftmost in H.
  destruct H as (pre & s' & -> & Hm & Hl).
  destruct (matchHere_sound re s' caps Hm) as (m & post & -> & Hd).
  exists pre, m, post.
  split; [reflexivity|]. split; [exact Hd|].
  intros a b m' caps' post' Hab Hb E Hd'.
  specialize (Hl a b Hab Hb). rewrite E in Hl.
  exact (matchHere_complete re m' caps' post' Hd' Hl).
Qed.

Lemma search_here (re : Regex.regex) (s : string) (caps : list string) :
  Regex.matchHere re s = Some caps -> Regex.search re s = Some caps.
Proof. intros H. destruct s; simpl; now rewrite H. Qed.

Lemma lacks_app (a : ascii) (x y : string) :
  lacks a (x ++ y) = lacks a x && lacks a y.
Proof.
  induction x as [|c x IH]; simpl; [reflexivity|].
  now rewrite IH, andb_assoc.
Qed.

Lemma allIn_lacks (k : Regex.cclass) (a : ascii) (s : string) :
  Regex.inClass k a = false -> allIn k s = true -> lacks a s = true.
Proof.
  intros Ha. induction s as [|c s IH]; simpl; [reflexivity|].
  intros H. apply andb_true_iff in H. destruct H as [Hc Hs].
  rewrite (IH Hs), andb_true_r.
  destruct (Ascii.eqb_spec c a) as [->|]; [congruence | reflexivity].
Qed.

(** A search skips text in which the first character of the pattern
    does not occur. *)
Lemma search_skip (a : ascii) (text : string) (re : Regex.regex)
    (u s : string) :
  lacks a u = true ->
  Regex.search (Regex.Chars (String a text) :: re) (u ++ s)
  = Regex.search (Regex.Chars (String a text) :: re) s.
Proof.
  induction u as [|c u IH]; intros H; [reflexivity|].
  simpl in H. apply andb_true_iff in H. destruct H as [Hc Hu].
  change (String c u ++ s) with (String c (u ++ s)).
  cbn [Regex.search Regex.matchHere Regex.stripPrefix].
  destruct (Ascii.eqb_spec a c) as [->|_].
  - rewrite Ascii.eqb_refl in Hc. discriminate.
  - now apply IH.
Qed.

Lemma spanClass_app (k : Regex.cclass) (v post : string) :
  allIn k v = true -> stopsClass k post -> spanClass k (v ++ post) = v.
Proof.
  induction v as [|c v IH]; simpl; intros Ha Hs.
  - destruct post as [|c post]; [reflexivity|].
    simpl in *. now rewrite Hs.
  - apply andb_true_iff in Ha. destruct Ha as [Hc Ha].
    now rewrite Hc, IH.
Qed.

Lemma class_run_unique (k : Regex.cclass) (a : string) :
  forall b x y,
    allIn k a = true -> allIn k b = true ->
    stopsClass k x -> stopsClass k y ->
    a ++ x = b ++ y -> a = b.
Proof.
  induction a as [|c a IH]; intros b x y Ha Hb Hx Hy E.
  - destruct b as [|d b]; [reflexivity|].
    simpl in *. subst x. simpl in Hx.
    apply andb_true_iff in Hb. destruct Hb as [Hd _]. congruence.
  - destruct b as [|d b]; simpl in *.
    + subst y. simpl in Hy.
      apply andb_true_iff in Ha. destruct Ha as [Hc _]. congruence.
    + injection E as -> E.
      apply andb_true_iff in Ha. destruct Ha as [_ Ha].
      apply andb_true_iff in Hb. destruct Hb as [_ Hb].
      f_equal. exact (IH b x y Ha Hb Hx Hy E).
Qed.

(** The match of [text(k+)] at the start of [text ++ v ++ post]. *)
Lemma match_text_group (text : string) (k : Regex.cclass) (v post : string) :
  v <> "" -> allIn k v = true -> stopsClass k post ->
  Regex.matchHere [Regex.Chars text; Regex.Group k] (text ++ v ++ post)
  = Some [v].
Proof.
  intros Hv Ha Hs. cbn [Regex.matchHere]. rewrite stripPrefix_complete.
  destruct (Regex.plus k _ (v ++ post) "") as [caps|] eqn:E.
  - apply plus_greedy in E; [|reflexivity].
    destruct E as [_ ->]. now rewrite spanClass_app.
  - exfalso. revert E. apply plus_complete; auto. discriminate.
Qed.

(** The match of [text(k+)after] at the start of
    [text ++ v ++ after ++ post], when [after] does not start with a
    character of the class. *)
Lemma match_text_group_text (text after : string) (k : Regex.cclass)
    (v post : string) :
  v <> "" -> allIn k v = true -> stopsClass k after -> after <> "" ->
  Regex.matchHere [Regex.Chars text; Regex.Group k; Regex.Chars after]
    (text ++ v ++ after ++ post)
  = Some [v].
Proof.
  intros Hv Ha Hs Hne. cbn [Regex.matchHere]. rewrite stripPrefix_complete.
  set (rest := fun s' => match Regex.stripPrefix after s' with
                         | Some _ => Some []
                         | None => None
                         end).
  assert (Hstop : stopsClass k (after ++ post)).
  { destruct after; [contradiction | exact Hs]. }
  destruct (Regex.plus k rest (v ++ after ++ post) "") as [caps|] eqn:E.
  - apply plus_sound in E.
    destruct E as (w & s' & caps' & Hw & Hwa & E & Hr & ->).
    unfold rest in Hr.
    destruct (Regex.stripPrefix after s') as [s2|] eqn:Es; [|discriminate].
    injection Hr as <-. apply stripPrefix_sound in Es. subst s'.
    assert (Hstop2 : stopsClass k (after ++ s2)).
    { destruct after; [contradiction | exact Hs]. }
    now rewrite (class_run_unique k v w _ _ Ha Hwa Hstop Hstop2 E).
  - exfalso. revert E. apply plus_complete; auto.
    unfold rest. rewrite stripPrefix_complete. discriminate.
Qed.

(** X10.  A summary of three lines is read back exactly: whatever
    follows it, the notification shows the count of files, the count of
    characters and the label that the lines carry. *)
Theorem summary_round_trip (files size kind rest : string) :
  files <> "" -> allIn Regex.Digit files = true ->
  size <> "" -> allIn Regex.Digit size = true ->
  kind <> "" -> allIn Regex.Word kind = true ->
  notification (summaryText files size kind ++ rest)
  = "Files copied to clipboard! (" ++ files ++ " files, " ++ size
    ++ " characters, " ++ kind ++ " project)".
Proof.
  intros Hf Af Hs As Hk Ak.
  assert (Ef : filesCount (summaryText files size kind ++ rest) = files).
  { unfold filesCount, orElse, filesMatch, filesRe, summaryText.
    rewrite !append_assoc.
    rewrite (search_here _ _ [files]); [reflexivity|].
    apply match_text_group; auto. reflexivity. }
  assert (Es : charCount (summaryText files size kind ++ rest) = size).
  { unfold charCount, orElse, sizeMatch, sizeRe, summaryText.
    rewrite !append_assoc.
    rewrite <- (append_assoc "Files processed: " files).
    rewrite <- (append_assoc ("Files processed: " ++ files) newline).
    rewrite search_skip.
    - rewrite (search_here _ _ [size]); [reflexivity|].
      apply match_text_group_text; auto; [reflexivity | discriminate].
    - rewrite !lacks_app, (allIn_lacks Regex.Digit "T" files eq_refl Af).
      reflexivity. }
  assert (Ek : projectType (summaryText files size kind ++ rest) = kind).
  { unfold projectType, orElse, typeMatch, typeRe, summaryText.
    rewrite !append_assoc.
    rewrite <- (append_assoc "Files processed: " files).
    rewrite <- (append_assoc ("Files processed: " ++ files) newline).
    rewrite <- (append_assoc (("Files processed: " ++ files) ++ newline)
                  "Total size: ").
    rewrite <- (append_assoc _ size).
    rewrite <- (append_assoc _ " characters").
    rewrite <- (append_assoc _ newline).
    rewrite search_skip.
    - rewrite (search_here _ _ [kind]); [reflexivity|].
      apply match_text_group; auto. reflexivity.
    - rewrite !lacks_app, (allIn_lacks Regex.Digit "P" files eq_refl Af),
        (allIn_lacks Regex.Digit "P" size eq_refl As).
      reflexivity. }
  unfold notification. now rewrite Ef, Es, Ek.
Qed.

(* ================================================================== *)
(** * Further properties of the command line *)

Lemma quoteFree_split (a : string) :
  forall b x y,
    quoteFree a = true -> quoteFree b = true ->
    a ++ dquote ++ x = b ++ dquote ++ y -> a = b /\ x = y.
Proof.
  unfold dquote.
  induction a as [|c a IH]; intros b x y Ha Hb E.
  - destruct b as [|d b]; simpl in *.
    + injection E as ->. auto.
    + injection E as <- _. rewrite Ascii.eqb_refl in Hb. discriminate.
  - destruct b as [|d b]; simpl in *.
    + injection E as -> _. rewrite Ascii.eqb_refl in Ha. discriminate.
    + injection E as -> E.
      apply andb_true_iff in Ha. destruct Ha as [_ Ha].
      apply andb_true_iff in Hb. destruct Hb as [_ Hb].
      destruct (IH b x y Ha Hb E) as [-> ->]. auto.
Qed.

Lemma concat_quoted_cons (p : string) (l : list string) :
  String.concat " " (map quoted (p :: l))
  = dquote ++ p ++ dquote
    ++ match l with
       | [] => ""
       | _ => " " ++ String.concat " " (map quoted l)
       end.
Proof.
  destruct l as [|q l]; cbn [String.concat map]; unfold quoted.
  - now rewrite (append_empty_r dquote).
  - now rewrite !append_assoc.
Qed.

Lemma quoted_paths_injective (l1 : list string) :
  forall l2,
    (forall p, In p l1 -> quoteFree p = true) ->
    (forall p, In p l2 -> quoteFree p = true) ->
    String.concat " " (map quoted l1) = String.concat " " (map quoted l2) ->
    l1 = l2.
Proof.
  induction l1 as [|p l1 IH]; intros l2 H1 H2 E.
  - destruct l2 as [|q l2]; [reflexivity|].
    rewrite concat_quoted_cons in E. discriminate.
  - destruct l2 as [|q l2].
    + rewrite concat_quoted_cons in E. discriminate.
    + rewrite !concat_quoted_cons in E.
      change (dquote ++ ?a) with (String (ascii_of_nat 34) a) in E.
      injection E as E.
      apply quoteFree_split in E;
        [|apply H1; now left | apply H2; now left].
      destruct E as [-> E]. f_equal.
      apply IH.
      * intros x Hx. apply H1. now right.
      * intros x Hx. apply H2. now right.
      * destruct l1 as [|a l1], l2 as [|b l2]; try reflexivity;
          try (rewrite concat_quoted_cons in E; discriminate).
        now injection E.
Qed.

(** X11.  The selected paths are put between double quotes and nothing
    in them is escaped.  As texts handed to [child_process.exec], the
    positional arguments of two different selections differ when no
    selected path holds a double quote (what the shell then makes of a
    text is not modelled); a path that holds a double quote gives the
    very text that two paths give, or that one path followed by a
    [--cargo-toml] override gives, though the detection produced no
    such override. *)
Theorem command_text_and_double_quotes :
  (forall l1 l2,
     (forall p, In p l1 -> quoteFree p = true) ->
     (forall p, In p l2 -> quoteFree p = true) ->
     String.concat " " (map quoted l1) = String.concat " " (map quoted l2) ->
     l1 = l2)
  /\ (forall a b,
        commandArgs [a ++ dquote ++ " " ++ dquote ++ b]
          {| cargoToml := None; pythonProject := None |}
        = commandArgs [a; b] {| cargoToml := None; pythonProject := None |})
  /\ (forall a manifest,
        manifest <> "" -> manifest <> a ->
        commandArgs [a ++ dquote ++ " --cargo-toml " ++ dquote ++ manifest]
          {| cargoToml := None; pythonProject := None |}
        = commandArgs [a]
            {| cargoToml := Some manifest; pythonProject := None |}).
Proof.
  split; [intros l1 l2; apply quoted_paths_injective|]. split.
  - intros a b. unfold commandArgs, quoted. simpl.
    now rewrite !append_assoc, !append_empty_r.
  - intros a manifest Hne Hd. unfold commandArgs, override, quoted, includes.
    simpl.
    destruct (String.eqb_spec manifest "") as [|_]; [contradiction|].
    destruct (String.eqb_spec manifest a) as [|_]; [contradiction|].
    simpl. now rewrite !append_assoc, !append_empty_r.
Qed.

(* ================================================================== *)
(** * Properties of the command as a whole *)

Lemma textTabs_In (l : list TabInput) (u : string) :
  In u (flat_map (fun input => match input with
                               | TabInputText uri => [uri]
                               | TabInputOther => []
                               end) l)
  <-> In (TabInputText u) l.
Proof.
  rewrite in_flat_map. split.
  - intros ([uri|] & Hin & Hu); [|destruct Hu].
    destruct Hu as [<-|[]]. exact Hin.
  - intros H. exists (TabInputText u). split; [exact H | now left].
Qed.

Lemma selectPaths_nonempty (e : Editor) (uri : option string)
    (paths : list string) :
  selectPaths e uri = Selected paths -> paths <> [].
Proof.
  unfold selectPaths. destruct uri as [u|]; [intros [= <-]; discriminate|].
  destruct (getExplorerSelection e) as [[|u us]|];
    try (intros [= <-]; discriminate);
    (destruct (activeTextEditor e); [intros [= <-]; discriminate|];
     destruct (workspaceFolders e) as [[|f [|g fs']]|];
     try discriminate; try (intros [= <-]; discriminate);
     destruct (showQuickPick e _); [intros [= <-]|]; discriminate).
Qed.

Lemma copyProject_cases (h : Host) (paths : list string) :
  paths <> [] ->
  (existsSync (fs h) (binPath h) = false
   /\ copyProject h paths
      = Some [ShowErrorMessage
                "Code Copier binary not found. Please check the installation."])
  \/ (existsSync (fs h) (binPath h) = true
      /\ exists message st,
           detectProjectFiles (fs h) paths = Threw message st
           /\ copyProject h paths = Some [ShowErrorMessage ("Error: " ++ message)])
  \/ (existsSync (fs h) (binPath h) = true
      /\ exists st command shown,
           detectProjectFiles (fs h) paths = Returned st
           /\ command = quoted (binPath h) ++ " " ++ commandArgs paths (result st)
           /\ copyProject h paths
              = Some (ProgressReport 0 "Starting..." :: Exec command :: shown)
           /\ (shown = [ProgressReport 100 "Complete!";
                        ShowInformationMessage
                          (notification (stdout (exec h command)))]
               \/ exists message,
                    shown = [ShowErrorMessage
                               ("Error copying files: " ++ message)])).
Proof.
  intros Hne.
  destruct (existsSync (fs h) (binPath h)) eqn:Hb.
  - right.
    destruct (detectProjectFiles (fs h) paths) as [st|message st|] eqn:Hd.
    + right. split; [reflexivity|].
      exists st, (quoted (binPath h) ++ " " ++ commandArgs paths (result st)).
      eexists. split; [reflexivity|]. split; [reflexivity|].
      rewrite (copyProject_returned h paths st Hne Hb Hd). cbv zeta.
      split; [reflexivity|].
      destruct (error (exec h _)); eauto.
    + left. split; [reflexivity|]. exists message, st. split; [reflexivity|].
      unfold copyProject. rewrite Hb, Hd. destruct paths; [contradiction|].
      reflexivity.
    + exfalso. revert Hd. apply for_paths_not_diverged.
  - left. split; [reflexivity|].
    unfold copyProject. rewrite Hb. destruct paths; [contradiction|].
    reflexivity.
Qed.

(** X12.  Every run of the command ends; it shows at most one message
    and starts the core at most once; it shows nothing only when the
    user dismisses the folder picker; it starts the core exactly when
    paths are selected, the binary is there and the detection returns;
    and the message about an empty selection cannot appear. *)
Theorem command_outcome (e : Editor) (h : Host) (uri : option string) :
  exists actions,
    copyProjectCommand e h uri = Some actions
    /\ List.length (messages actions) <= 1
    /\ List.length (executed actions) <= 1
    /\ ~ In "No files or directories selected." (messages actions)
    /\ (messages actions = [] <-> selectPaths e uri = Cancelled)
    /\ (executed actions <> [] <->
        exists paths st,
          selectPaths e uri = Selected paths
          /\ existsSync (fs h) (binPath h) = true
          /\ detectProjectFiles (fs h) paths = Returned st).
Proof.
  unfold copyProjectCommand.
  destruct (selectPaths e uri) as [paths| |] eqn:Hsel.
  - pose proof (selectPaths_nonempty e uri paths Hsel) as Hne.
    destruct (copyProject_cases h paths Hne)
      as [[Hb ->]|[(Hb & message & st & Hd & ->)
                  |(Hb & st & command & shown & Hd & _ & -> & Hshown)]].
    + eexists. split; [reflexivity|]. simpl.
      repeat split; try lia; try discriminate.
      * intros [H|[]]. discriminate.
      * intros H. now contradiction H.
      * intros (p & st & [= <-] & Hb' & _). congruence.
    + eexists. split; [reflexivity|]. simpl.
      repeat split; try lia; try discriminate.
      * intros [H|[]]. discriminate.
      * intros H. now contradiction H.
      * intros (p & st' & [= <-] & _ & Hd'). congruence.
    + eexists. split; [reflexivity|].
      destruct Hshown as [->|[message ->]]; simpl;
        repeat split; try lia; try discriminate;
        try (intros [H|[]]; discriminate);
        intros _; exists paths, st; auto.
  - eexists. split; [reflexivity|]. simpl.
    repeat split; try lia; try discriminate.
    + intros [H|[]]. discriminate.
    + intros H. now contradiction H.
    + intros (p & st & H & _). discriminate.
  - eexists. split; [reflexivity|]. simpl.
    repeat split; try lia; auto.
    + intros H. now contradiction H.
    + intros (p & st & H & _). discriminate.
Qed.

(** X13.  Run without a target, the command takes every text tab of the
    active tab group, in the order of the tabs, whenever the setting
    [explorer.experimentalFileNesting] is off and there is such a tab,
    whatever the active editor and the workspace folders are; the active
    editor alone is taken when the setting is on or no tab is a text
    tab. *)
Theorem palette_takes_all_text_tabs (e : Editor) :
  (forall u0,
     experimentalFileNesting e = false ->
     In (TabInputText u0) (tabs e) ->
     exists paths,
       selectPaths e None = Selected paths
       /\ getExplorerSelection e = Some paths
       /\ forall u, In u paths <-> In (TabInputText u) (tabs e))
  /\ (forall document,
        experimentalFileNesting e = true
        \/ (forall u, ~ In (TabInputText u) (tabs e)) ->
        activeTextEditor e = Some document ->
        selectPaths e None = Selected [document]).
Proof.
  split.
  - intros u0 Hn Hin. unfold selectPaths, getExplorerSelection. rewrite Hn.
    set (sel := flat_map _ (tabs e)).
    assert (Hu : In u0 sel) by (apply textTabs_In; exact Hin).
    destruct sel as [|u us] eqn:E; [destruct Hu|].
    exists (u :: us). split; [reflexivity|]. split; [reflexivity|].
    intros x. rewrite <- E. apply textTabs_In.
  - intros document H Ha. unfold selectPaths, getExplorerSelection.
    destruct H as [->|H]; [now rewrite Ha|].
    destruct (experimentalFileNesting e); [now rewrite Ha|].
    set (sel := flat_map _ (tabs e)).
    destruct sel as [|u us] eqn:E; [now rewrite Ha|].
    exfalso. apply (H u). apply textTabs_In. fold sel. rewrite E. now left.
Qed.

(** X14.  The command selects nothing of its own: when the folder picker
    answers with one of the options it was given, every selected path is
    the target the command was called with, a text tab, the document of
    the active editor or a workspace folder. *)
Theorem selected_paths_come_from_the_editor (e : Editor)
    (uri : option string) (paths : list string) :
  (forall options answer,
     showQuickPick e options = Some answer -> In answer options) ->
  selectPaths e uri = Selected paths ->
  forall p,
    In p paths ->
    uri = Some p
    \/ (uri = None /\ experimentalFileNesting e = false
        /\ In (TabInputText p) (tabs e))
    \/ (uri = None /\ activeTextEditor e = Some p)
    \/ (uri = None /\ activeTextEditor e = None
        /\ exists folders folder,
             workspaceFolders e = Some folders
             /\ In folder folders /\ folderUri folder = p).
Proof.
  intros Hpick Hsel p Hp. unfold selectPaths in Hsel.
  destruct uri as [u|].
  { injection Hsel as <-. destruct Hp as [<-|[]]. now left. }
  right.
  destruct (getExplorerSelection e) as [[|u us]|] eqn:G.
  2: { injection Hsel as <-. left.
       unfold getExplorerSelection in G.
       destruct (experimentalFileNesting e); [discriminate|].
       injection G as G. split; [reflexivity|]. split; [reflexivity|].
       apply textTabs_In. now rewrite G. }
  all: right;
    destruct (activeTextEditor e) as [document|];
    [ injection Hsel as <-; destruct Hp as [<-|[]]; now left
    | right; split; [reflexivity|]; split; [reflexivity|];
      destruct (workspaceFolders e) as [[|f [|g l]]|]; try discriminate;
      [ injection Hsel as <-; destruct Hp as [<-|[]];
        exists [f], f; simpl; auto
      | destruct (showQuickPick e _) as [answer|] eqn:Ea; [|discriminate];
        injection Hsel as <-; destruct Hp as [<-|[]];
        apply Hpick in Ea; apply in_map_iff in Ea;
        destruct Ea as (folder & <- & Hin);
        exists (f :: g :: l), folder; auto ] ].
Qed.



(* ================================================================== *)
(** * The earlier handler and the build script *)

(** X15.  The later handler chooses as the earlier one did wherever the
    earlier one had a choice: called with a target, or with no text tab
    to take (or the setting on) and no active editor, it selects the one
    path that the earlier handler copies, and stops where that one
    stops. *)
Theorem selection_extends_the_earlier_one (e : Editor) (uri : option string) :
  uri <> None
  \/ (getExplorerSelection e = None \/ getExplorerSelection e = Some [])
     /\ activeTextEditor e = None ->
  selectPaths e uri
  = match legacyChoose e uri with
    | Chosen dirPath => Selected [dirPath]
    | NoFolder => NoWorkspaceFolder
    | Dismissed => Cancelled
    end.
Proof.
  intros H. unfold selectPaths, legacyChoose.
  destruct uri as [u|]; [reflexivity|].
  destruct H as [H|[H Ha]]; [contradiction|].
  rewrite Ha.
  destruct H as [-> | ->];
    (destruct (workspaceFolders e) as [[|f [|g l]]|]; try reflexivity;
     destruct (showQuickPick e _); reflexivity).
Qed.


(** X17.  The build script and the handlers disagree on the name of the
    binary: on every system where the script installs one, the file it
    copies into [bin/] is not the file the earlier handler looks for,
    and it is the file the later handler looks for only when the
    platform is [win32] and the script took its Windows branch. *)
Theorem installed_binary_name_mismatch (ostype name : string) :
  installedBinary ostype = Some name ->
  (forall h,
     binPath h = Path.join [extensionPath h; "bin"; binName (platform h)]
     /\ (platform h <> "win32" -> name <> binName (platform h))
     /\ (name = binName (platform h) ->
         platform h = "win32"
         /\ (String.prefix "msys" ostype = true \/ ostype = "win32")))
  /\ name <> "rust-code-copier" /\ name <> "rust-code-copier.exe".
Proof.
  unfold installedBinary, binName. intros H.
  assert (Hn : name = "llm-cocop-rs"
               \/ (name = "llm-cocop-rs.exe"
                   /\ (String.prefix "msys" ostype = true \/ ostype = "win32"))).
  { destruct (String.prefix "darwin" ostype); [left; congruence|].
    destruct (String.prefix "linux-gnu" ostype); [left; congruence|].
    destruct (String.prefix "msys" ostype) eqn:Em; simpl in H.
    - right. split; [congruence | now left].
    - destruct (String.eqb_spec ostype "win32") as [->|];
        [|discriminate].
      right. split; [congruence | now right]. }
  split.
  - intros h. split; [reflexivity|].
    destruct (String.eqb_spec (platform h) "win32") as [E|E].
    + split; [contradiction|]. intros Hname. split; [exact E|].
      destruct Hn as [->|[_ Hn]]; [discriminate | exact Hn].
    + split; [intros _; destruct Hn as [->|[-> _]]; discriminate|].
      intros Hname. destruct Hn as [->|[-> _]]; discriminate.
  - destruct Hn as [->|[-> _]]; split; discriminate.
Qed.

(* ================================================================== *)
(** * The file name at the end of a joined path *)

Lemma split_slash_nonempty (s : string) : Path.split_slash s <> [].
Proof.
  induction s as [|c s IH]; simpl; [discriminate|].
  destruct (Ascii.eqb c "/"); [discriminate|].
  destruct (Path.split_slash s); discriminate.
Qed.

Lemma split_slash_plain (name : string) :
  lacks "/" name = true -> Path.split_slash name = [name].
Proof.
  induction name as [|c name IH]; simpl; [reflexivity|].
  intros H. apply andb_true_iff in H. destruct H as [Hc Hn].
  apply negb_true_iff in Hc. rewrite Hc, (IH Hn). reflexivity.
Qed.

Lemma split_slash_app (d name : string) :
  lacks "/" name = true ->
  Path.split_slash (d ++ "/" ++ name) = (Path.split_slash d ++ [name])%list.
Proof.
  intros Hn. induction d as [|c d IH].
  - simpl. now rewrite split_slash_plain.
  - change (String c d ++ "/" ++ name) with (String c (d ++ "/" ++ name)).
    cbn [Path.split_slash]. rewrite IH.
    destruct (Ascii.eqb c "/"); [reflexivity|].
    pose proof (split_slash_nonempty d) as Hd.
    destruct (Path.split_slash d) as [|seg segs]; [contradiction | reflexivity].
Qed.

Lemma normalize_segments_snoc (allow : bool) (x : string) (segs : list string) :
  plainName x = true ->
  forall res,
    Path.normalize_segments allow (segs ++ [x]) res
    = (Path.normalize_segments allow segs res ++ [x])%list.
Proof.
  intros Hx. unfold plainName in Hx.
  apply andb_true_iff in Hx. destruct Hx as [Hx H2].
  apply andb_true_iff in Hx. destruct Hx as [Hx H1].
  apply andb_true_iff in Hx. destruct Hx as [H0 _].
  apply negb_true_iff in H0, H1, H2.
  induction segs as [|seg segs IH]; intros res.
  - simpl. rewrite H0, H1, H2. reflexivity.
  - simpl.
    destruct ((seg =? "") || (seg =? ".")); [apply IH|].
    destruct (seg =? ".."); [|apply IH].
    destruct res as [|last res']; [apply IH|].
    destruct (last =? ".."); apply IH.
Qed.

Lemma concat_snoc (l : list string) (x : string) :
  exists pre, String.concat "/" (l ++ [x]) = pre ++ x.
Proof.
  induction l as [|y l (pre & IH)].
  - exists "". reflexivity.
  - destruct l as [|z l].
    + exists (y ++ "/"). simpl. now rewrite append_assoc.
    + exists (y ++ "/" ++ pre).
      change (String.concat "/" ((y :: z :: l) ++ [x]))
        with (y ++ "/" ++ String.concat "/" ((z :: l) ++ [x])).
      now rewrite IH, !append_assoc.
Qed.

Lemma get_last_of_append (u name : string) :
  name <> "" ->
  exists c,
    String.get (String.length (u ++ name) - 1) (u ++ name) = Some c
    /\ String.get (String.length name - 1) name = Some c.
Proof.
  intros Hn.
  assert (Hl : exists c, String.get (String.length name - 1) name = Some c).
  { destruct (String.get (String.length name - 1) name) as [c|] eqn:E; [eauto|].
    exfalso. revert E. clear - Hn.
    induction name as [|a name IH]; [contradiction|].
    simpl. rewrite Nat.sub_0_r.
    destruct name as [|b name]; [discriminate|].
    intros E. apply IH; [discriminate|].
    simpl in *. rewrite Nat.sub_0_r. exact E. }
  destruct Hl as [c Hc]. exists c. split; [|exact Hc].
  induction u as [|a u IH]; [exact Hc|].
  simpl. rewrite Nat.sub_0_r.
  destruct (u ++ name) as [|b w] eqn:E.
  - destruct u; [simpl in E; contradiction | discriminate].
  - simpl in IH. rewrite Nat.sub_0_r in IH. exact IH.
Qed.

Lemma get_lacks (a : ascii) (s : string) :
  lacks a s = true ->
  forall n c, String.get n s = Some c -> Ascii.eqb c a = false.
Proof.
  induction s as [|x s IH]; intros H n c E; [destruct n; discriminate|].
  simpl in H. apply andb_true_iff in H. destruct H as [Hx Hs].
  destruct n as [|n]; simpl in E.
  - injection E as <-. now apply negb_true_iff.
  - now apply (IH Hs n).
Qed.

(** A path joined with a file name ends with that name. *)
Lemma join_ends_with_name (d name : string) :
  plainName name = true -> exists pre, Path.join [d; name] = pre ++ name.
Proof.
  intros Hp. pose proof Hp as Hp'. unfold plainName in Hp'.
  apply andb_true_iff in Hp'. destruct Hp' as [Hp' _].
  apply andb_true_iff in Hp'. destruct Hp' as [Hp' _].
  apply andb_true_iff in Hp'. destruct Hp' as [H0 Hs].
  apply negb_true_iff, String.eqb_neq in H0.
  assert (Hnorm : forall u,
             (u = "" \/ exists d', u = d' ++ "/") ->
             exists pre, Path.normalize (u ++ name) = pre ++ name).
  { intros u Hu. unfold Path.normalize.
    destruct (String.length (u ++ name) =? 0)%nat eqn:E0.
    { apply Nat.eqb_eq in E0. rewrite length_append in E0.
      destruct name; [contradiction | simpl in E0; lia]. }
    destruct (get_last_of_append u name H0) as (c & Hc & Hc').
    assert (Ht : Path.isSlashAt (u ++ name) (String.length (u ++ name) - 1)
                 = false).
    { unfold Path.isSlashAt. rewrite Hc. exact (get_lacks _ _ Hs _ _ Hc'). }
    rewrite Ht.
    assert (Hsegs : exists segs, Path.split_slash (u ++ name)
                                 = (segs ++ [name])%list).
    { destruct Hu as [->|[d' ->]].
      - exists []. simpl. now apply split_slash_plain.
      - exists (Path.split_slash d'). rewrite append_assoc.
        now apply split_slash_app. }
    destruct Hsegs as [segs ->].
    rewrite normalize_segments_snoc by exact Hp.
    destruct (concat_snoc
                (Path.normalize_segments
                   (negb (Path.isSlashAt (u ++ name) 0)) segs []) name)
      as [pre ->].
    destruct (String.length (pre ++ name) =? 0)%nat eqn:E1.
    { apply Nat.eqb_eq in E1. rewrite length_append in E1.
      destruct name; [contradiction | simpl in E1; lia]. }
    destruct (Path.isSlashAt (u ++ name) 0).
    - exists ("/" ++ pre). reflexivity.
    - exists pre. reflexivity. }
  unfold Path.join. simpl filter.
  assert (En : (String.length name =? 0)%nat = false).
  { destruct name; [contradiction | reflexivity]. }
  rewrite En. simpl negb.
  destruct (String.length d =? 0)%nat eqn:Ed; simpl.
  - destruct (Hnorm "") as [pre E]; [now left|]. exists pre. exact E.
  - destruct (Hnorm (d ++ "/")) as [pre E]; [right; eauto|].
    exists pre. rewrite append_assoc in E. exact E.
Qed.

(** X18.  What the detection returns is named as a manifest: the path
    of a returned Rust manifest ends with [Cargo.toml], and the path of
    a returned Python project file ends with one of [pyproject.toml],
    [setup.py] and [requirements.txt]. *)
Theorem returned_paths_are_named_as_manifests (fs : FS) (paths : list string)
    (st : State) :
  detectProjectFiles fs paths = Returned st ->
  (forall p, cargoToml (result st) = Some p ->
             exists pre, p = pre ++ "Cargo.toml")
  /\ (forall p, pythonProject (result st) = Some p ->
                exists pre name, In name pythonNames /\ p = pre ++ name).
Proof.
  intros H. destruct (detect_searchOrder fs paths st H) as [Hc Hp].
  split; intros p E.
  - rewrite Hc in E. apply firstSome_In in E. destruct E as (d & _ & E).
    apply cargoAt_some in E. destruct E as [-> _].
    apply join_ends_with_name. reflexivity.
  - rewrite Hp in E. apply firstSome_In in E. destruct E as (d & _ & E).
    apply pythonAt_some in E. destruct E as [(name & Hn & ->) _].
    destruct (join_ends_with_name d name) as [pre Epre].
    + unfold pythonNames in Hn. simpl in Hn.
      destruct Hn as [<-|[<-|[<-|[]]]]; reflexivity.
    + exists pre, name. auto.
Qed.

(* ================================================================== *)
(** * The further properties at sample inputs *)

Lemma detect_throws_only_on_missing_input_witness :
  (exists pre p post st0,
      ["/ext/bin"; "/nope"; "/w"] = (pre ++ p :: post)%list
      /\ statSync workspaceFS p
         = inr "ENOENT: no such file or directory, stat '/nope'"
      /\ detectProjectFiles workspaceFS pre = Returned st0
      /\ foundBoth st0 = false
      /\ emit (StatSync "/nope")
           {| result := {| cargoToml := None; pythonProject := None |};
              trace := [StatSync "/ext/bin"; Enter "/ext/bin";
                        ExistsSync "/ext/bin/Cargo.toml";
                        ExistsSync "/ext/bin/pyproject.toml";
                        ExistsSync "/ext/bin/setup.py";
                        ExistsSync "/ext/bin/requirements.txt";
                        Enter "/ext"; ExistsSync "/ext/Cargo.toml";
                        ExistsSync "/ext/pyproject.toml";
                        ExistsSync "/ext/setup.py";
                        ExistsSync "/ext/requirements.txt";
                        Enter "/"; ExistsSync "/Cargo.toml";
                        ExistsSync "/pyproject.toml"; ExistsSync "/setup.py";
                        ExistsSync "/requirements.txt"] |}
         = emit (StatSync p) st0)
  /\ exists st, detectProjectFiles workspaceFS ["/w/app"; "/w"] = Returned st.
Proof.
  split.
  - exact (proj1 (detect_throws_only_on_missing_input workspaceFS
                    ["/ext/bin"; "/nope"; "/w"]) _ _ eq_refl).
  - apply (proj2 (detect_throws_only_on_missing_input workspaceFS
                    ["/w/app"; "/w"])).
    intros p [<-|[<-|[]]]; eexists; reflexivity.
Defined.


Lemma returned_manifests_lie_above_inputs_witness :
  existsSync workspaceFS "/w/app/Cargo.toml" = true
  /\ existsSync workspaceFS "/w/requirements.txt" = true.
Proof.
  destruct (returned_manifests_lie_above_inputs workspaceFS
              ["/w/app/src/main.rs"] _ eq_refl) as [Hc Hp].
  split.
  - exact (proj1 (Hc "/w/app/Cargo.toml" eq_refl)).
  - exact (proj1 (Hp "/w/requirements.txt" eq_refl)).
Defined.

Lemma more_inputs_only_fill_gaps_witness :
  (exists st2,
      detectProjectFiles siblingsFS (["/p/a/x.py"] ++ ["/p/b/y.py"])
      = Returned st2
      /\ pythonProject (result st2) = Some "/p/a/requirements.txt"
      /\ cargoToml (result st2) = None)
  /\ (exists message st2,
        detectProjectFiles siblingsFS (["/p/a/x.py"] ++ ["/nope"])
        = Threw message st2
        /\ pythonProject (result st2) = Some "/p/a/requirements.txt").
Proof.
  destruct (more_inputs_only_fill_gaps siblingsFS ["/p/a/x.py"] ["/p/b/y.py"]
              _ eq_refl) as (Hr & _ & Hall).
  destruct (more_inputs_only_fill_gaps siblingsFS ["/p/a/x.py"] ["/nope"]
              _ eq_refl) as (_ & Ht & _).
  split.
  - destruct Hall as [st2 E].
    { intros p [<-|[]]. eexists. reflexivity. }
    exists st2. split; [exact E|].
    destruct (Hr st2 E) as [Ec Ep]. rewrite Ec, Ep. split; reflexivity.
  - eexists. eexists. split; [reflexivity|].
    exact (proj2 (proj2 (Ht _ _ eq_refl)) "/p/a/requirements.txt" eq_refl).
Defined.

Lemma file_or_its_directory_witness :
  exists st1 st2,
    detectProjectFiles workspaceFS ["/w/app/src/main.rs"] = Returned st1
    /\ detectProjectFiles workspaceFS [Path.dirname "/w/app/src/main.rs"]
       = Returned st2
    /\ result st1 = result st2.
Proof.
  exact (file_or_its_directory workspaceFS "/w/app/src/main.rs"
           {| isFile := true |} {| isFile := false |}
           eq_refl eq_refl eq_refl eq_refl).
Defined.

Lemma kinds_do_not_interfere_witness :
  exists st1 st2,
    detectProjectFiles workspaceFS ["/w/app/src/main.rs"] = Returned st1
    /\ detectProjectFiles rustOnlyFS ["/w/app/src/main.rs"] = Returned st2
    /\ cargoToml (result st2) = cargoToml (result st1)
    /\ pythonProject (result st2) <> pythonProject (result st1).
Proof.
  eexists. eexists. split; [reflexivity|]. split; [reflexivity|]. split.
  - apply (proj1 (kinds_do_not_interfere workspaceFS rustOnlyFS
                    ["/w/app/src/main.rs"] _ _
                    (fun p => eq_refl) eq_refl eq_refl)).
    intros d. unfold rustOnlyFS. cbn [existsSync].
    destruct (join_ends_with_name d "Cargo.toml" eq_refl) as [pre ->].
    destruct (String.eqb_spec (pre ++ "Cargo.toml") "/w/requirements.txt")
      as [E|_]; [|apply andb_true_r].
    exfalso.
    repeat (destruct pre as [|? pre]; [discriminate|];
            simpl in E; injection E as _ E).
    destruct pre; discriminate.
  - discriminate.
Defined.


Lemma probes_are_bounded_witness :
  exists st,
    detectProjectFiles workspaceFS ["/w/app/src/main.rs"] = Returned st
    /\ List.length (probed (trace st)) <= 4 * List.length (entered (trace st))
    /\ List.length (entered (trace st)) <= 21.
Proof.
  eexists. split; [reflexivity|].
  destruct (probes_are_bounded workspaceFS ["/w/app/src/main.rs"] _ eq_refl)
    as (_ & H1 & H2 & _).
  split; [exact H1 | exact H2].
Defined.

Lemma first_summary_is_read_witness :
  exists pre m post,
    "Total size: 12 chars; Total size: 77 characters" = pre ++ m ++ post
    /\ denotes sizeRe m ["77"].
Proof.
  destruct (first_summary_is_read sizeRe
              "Total size: 12 chars; Total size: 77 characters" ["77"])
    as (pre & m & post & E & Hd & _).
  - right. left. reflexivity.
  - reflexivity.
  - exists pre, m, post. auto.
Defined.

Lemma summary_round_trip_witness :
  notification (summaryText "12" "3456" "rust" ++ "Copied to clipboard")
  = "Files copied to clipboard! (12 files, 3456 characters, rust project)".
Proof.
  apply (summary_round_trip "12" "3456" "rust" "Copied to clipboard");
    try discriminate; reflexivity.
Defined.

Lemma command_text_and_double_quotes_witness :
  ["/w/a b"; "/w/c"] = ["/w/a b"; "/w/c"]
  /\ commandArgs ["/w/a" ++ dquote ++ " --cargo-toml " ++ dquote ++ "/x/Cargo.toml"]
       {| cargoToml := None; pythonProject := None |}
     = commandArgs ["/w/a"]
         {| cargoToml := Some "/x/Cargo.toml"; pythonProject := None |}.
Proof.
  destruct command_text_and_double_quotes as (Hinj & _ & Hover).
  split.
  - apply Hinj; [| |reflexivity];
      intros p [<-|[<-|[]]]; reflexivity.
  - apply Hover; discriminate.
Defined.

Lemma command_outcome_witness :
  exists actions,
    copyProjectCommand sampleEditor (sampleHost workspaceFS sampleStdout) None
    = Some actions
    /\ List.length (messages actions) <= 1
    /\ List.length (executed actions) <= 1.
Proof.
  destruct (command_outcome sampleEditor (sampleHost workspaceFS sampleStdout)
              None) as (actions & E & Hm & Hx & _).
  exists actions. auto.
Defined.

Lemma palette_takes_all_text_tabs_witness :
  exists paths,
    selectPaths sampleEditor None = Selected paths
    /\ getExplorerSelection sampleEditor = Some paths
    /\ forall u, In u paths <-> In (TabInputText u) (tabs sampleEditor).
Proof.
  apply (proj1 (palette_takes_all_text_tabs sampleEditor) "/w/app/src/main.rs").
  - reflexivity.
  - simpl. auto.
Defined.

Lemma selected_paths_come_from_the_editor_witness :
  exists folders folder,
    workspaceFolders bareEditor = Some folders
    /\ In folder folders /\ folderUri folder = "/other".
Proof.
  destruct (selected_paths_come_from_the_editor bareEditor None ["/other"])
    with (p := "/other") as [H|[H|[H|H]]].
  - intros options answer H. exact (nth_error_In options 1 H).
  - reflexivity.
  - simpl. auto.
  - discriminate.
  - destruct H as (_ & _ & H). destruct H.
  - destruct H as [_ H]. discriminate.
  - destruct H as (_ & _ & H). exact H.
Defined.

Lemma selection_extends_the_earlier_one_witness :
  selectPaths bareEditor None = Selected ["/other"]
  /\ legacyChoose bareEditor None = Chosen "/other".
Proof.
  split; [|reflexivity].
  rewrite (selection_extends_the_earlier_one bareEditor None).
  - reflexivity.
  - right. split; [right; reflexivity | reflexivity].
Defined.


Lemma installed_binary_name_mismatch_witness :
  "llm-cocop-rs" <> binName "linux".
Proof.
  destruct (installed_binary_name_mismatch "linux-gnu" "llm-cocop-rs" eq_refl)
    as [H _].
  destruct (H (sampleHost workspaceFS sampleStdout)) as (_ & Hn & _).
  apply Hn. discriminate.
Defined.

Lemma returned_paths_are_named_as_manifests_witness :
  (exists pre, "/w/app/Cargo.toml" = pre ++ "Cargo.toml")
  /\ exists pre name,
       In name pythonNames /\ "/w/requirements.txt" = pre ++ name.
Proof.
  destruct (returned_paths_are_named_as_manifests workspaceFS
              ["/w/app/src/main.rs"] _ eq_refl) as [Hc Hp].
  split.
  - exact (Hc "/w/app/Cargo.toml" eq_refl).
  - exact (Hp "/w/requirements.txt" eq_refl).
Defined.

Lemma for_paths_returned_all_exist (fs : FS) (paths : list string) :
  forall st st',
    for_paths fs paths st = Returned st' -> foundBoth st' = false ->
    forall p, In p paths -> exists stats, statSync fs p = inl stats.
Proof.
  induction paths as [|q paths IH]; intros st st' H Hb p Hp; [destruct Hp|].
  simpl in H.
  destruct (processPath_cases fs q st)
    as [(m & _ & E)|(stats & st1 & Hs & E & _)]; rewrite E in H;
    [discriminate|].
  destruct (foundBoth st1) eqn:B; [injection H as <-; congruence|].
  destruct Hp as [<-|Hp]; [eauto|].
  exact (IH _ _ H Hb p Hp).
Qed.

(** X19.  Selecting the same paths twice changes nothing: when the
    detection returns on a list of paths, it returns on the list
    followed by itself, with the same manifests. *)
Theorem repeated_inputs_are_harmless (fs : FS) (paths : list string)
    (st1 : State) :
  detectProjectFiles fs paths = Returned st1 ->
  exists st2,
    detectProjectFiles fs (paths ++ paths) = Returned st2
    /\ result st2 = result st1.
Proof.
  intros H1.
  destruct (foundBoth st1) eqn:B.
  - exists st1. split; [|reflexivity].
    exact (for_paths_app_done fs paths paths initial st1 H1 eq_refl B).
  - pose proof (for_paths_returned_all_exist fs paths initial st1 H1 B) as Hall.
    destruct (for_paths_all_exist fs (paths ++ paths) initial) as [st2 H2].
    { intros p Hp. apply in_app_or in Hp. destruct Hp; now apply Hall. }
    exists st2. split; [exact H2|].
    destruct (detect_searchOrder fs paths st1 H1) as [C1 P1].
    destruct (detect_searchOrder fs _ st2 H2) as [C2 P2].
    rewrite searchOrder_app, firstSome_app, <- C1 in C2.
    rewrite searchOrder_app, firstSome_app, <- P1 in P2.
    destruct (result st1) as [c1 p1], (result st2) as [c2 p2]. simpl in *.
    f_equal.
    + rewrite C2. now destruct c1.
    + rewrite P2. now destruct p1.
Qed.

Lemma repeated_inputs_are_harmless_witness :
  exists st2,
    detectProjectFiles siblingsFS (["/p/b/y.py"; "/p/a/x.py"]
                                   ++ ["/p/b/y.py"; "/p/a/x.py"])
    = Returned st2
    /\ pythonProject (result st2) = Some "/p/b/requirements.txt".
Proof.
  destruct (repeated_inputs_are_harmless siblingsFS ["/p/b/y.py"; "/p/a/x.py"]
              _ eq_refl) as (st2 & E & R).
  exists st2. split; [exact E|]. rewrite R. reflexivity.
Defined.
